(** * FetchAds: the attribute extraction and filtering pass of the
    fashion-accessories product feed (model/input/attributes.go).

    Go strings are byte strings: they are embedded as [string] (a list of
    8-bit [ascii]), so that [==] is [String.eqb], concatenation is
    [String.append] and [strings.ReplaceAll] works on bytes.  Go's [int]
    counters are 64-bit and are embedded as [Z] with the wrap-around of [++]
    written out.  The map literal [allowedSubcategories] is a [gmap]. *)

From Stdlib Require Import ZArith NArith Ascii String Lia.
From stdpp Require Import gmap strings list.

Local Open Scope Z_scope.

(** ** Data model *)

(** The Go [error] of a failed decode or fetch, as its message. *)
Definition error := string.

(** [AdItem]: the product record handed to the feed writer.  [CodeNumber] is a
    [json.Number], that is a Go string. *)
Module AdItem.
Record t := mk {
  ID : string;
  Title : string;
  Description : string;
  Link : string;
  ImageLink : string;
  Brand : string;
  Price : string;
  Availability : string;
  CodeNumber : string
}.
End AdItem.

(** One element of [response.Ads].  [Attributes] is the [json.RawMessage],
    the undecoded bytes of the attribute document. *)
Module Ad.
Record t := mk {
  ID : string;
  DraftID : string;
  Description : string;
  CodeNumber : string;
  Attributes : string
}.
End Ad.

(** [AdAttributes] and its nested anonymous structs.  A field absent from the
    document keeps Go's zero value: the empty string, the empty slice. *)
Record StepID := { ID_ID : string; ID_Value : string }.
Record StepInputSearchValue := { InputSearchValue_Value : string }.
Record Image := { Src : string }.
Record StepValues := {
  Brand : string;
  Price : string;
  Images : list Image;
  AdType : string
}.
Record Payment := { Value : string }.
Record StepPaymentMethods := { PaymentMethods_Data : list Payment }.
Record StepData := {
  ID : StepID;
  InputSearchValue : StepInputSearchValue;
  Values : StepValues;
  PaymentMethods : StepPaymentMethods
}.
Record Step := { Name : string; Data : StepData }.
Record AdAttributes := { StepsData : list Step }.

(** ** Go primitives used by [FetchAds] *)

(** [n++] on a Go [int] (64 bits, two's complement). *)
Definition int_wrap (z : Z) : Z := (z + 2 ^ 63) mod 2 ^ 64 - 2 ^ 63.
Definition int_incr (n : Z) : Z := int_wrap (n + 1).

(** [strings.ReplaceAll s old new] for a non-empty [old]: the occurrences of
    [old] are found from left to right without overlap, and each is replaced
    by [new].  [skip] counts the bytes of a matched occurrence still to be
    passed over.  (For an empty [old] Go inserts [new] around every rune; the
    program never calls it so, and the model returns [s] there.) *)
Fixpoint replace_from (old new : string) (skip : nat) (s : string) : string :=
  match s with
  | EmptyString => EmptyString
  | String c rest =>
      match skip with
      | S k => replace_from old new k rest
      | O =>
          if String.prefix old s
          then new +:+ replace_from old new (String.length old - 1) rest
          else String c (replace_from old new 0 rest)
      end
  end.

Definition ReplaceAll (s old new : string) : string :=
  match old with
  | EmptyString => s
  | String _ _ => replace_from old new 0 s
  end.

(** The one-byte string of the ampersand and the three-byte UTF-8 encoding
    E2 80 8E of U+200E LEFT-TO-RIGHT MARK, which is what the Go literal with
    the escape u200E denotes. *)
Definition ampersand : string := "&".
Definition LRM : string :=
  String "226"%char (String "128"%char (String "142"%char EmptyString)).

(** [fmt.Sprintf] of the two format strings of the program; [%s] copies the
    bytes of its argument. *)
Definition Sprintf_image (draftID imageSrc : string) : string :=
  "https://ayshei.com/_next/image?url=https://storage.ayshei.com/prod/public/drafts/"
    +:+ draftID +:+ "/web/" +:+ imageSrc +:+ "&amp;w=3840&amp;q=75".

Definition Sprintf_link (id : string) : string :=
  "https://ayshei.com/product/" +:+ id.

(** ** The subcategory allow-list *)

Definition allowedSubcategories : gmap string bool :=
  list_to_map [
    ("212818c2-5ae3-4a95-88c9-370b3b906df0", true);
    ("456ceaaa-de4d-449f-8621-3af7253fe452", true);
    ("5feb2aa4-3361-401b-ab05-d0623bab291b", true);
    ("7685d106-a4dd-48ed-876b-4dd8116f114c", true);
    ("34991934-f9ef-457c-9824-c82dad366889", true);
    ("1c4df47a-e94a-49b4-aeea-1d77dc4f5458", true);
    ("e84fd5e8-c303-46db-b1c6-e493781aef40", true);
    ("63d47c2b-a5eb-4439-b45d-ccbaa4ca671a", true);
    ("73a17eb3-1686-40d6-bcce-edc5c69b5540", true)
  ].

(** [allowedSubcategories[k]]: a missing key reads as [false]. *)
Definition allowed (k : string) : bool :=
  default false (allowedSubcategories !! k).

(** ** The three loops over [attrs.StepsData] *)

(** Lines 124-131: the first "search_product" step with an allowed identifier
    sets [shouldInclude] and leaves the loop. *)
Fixpoint subcategory_loop (steps : list Step) : bool :=
  match steps with
  | [] => false
  | step :: rest =>
      if String.eqb (Name step) "search_product" && allowed (ID_ID (ID (Data step)))
      then true
      else subcategory_loop rest
  end.

(** Lines 142-146: the inner loop over one step's payment methods. *)
Definition payment_loop (has : bool) (payments : list Payment) : bool :=
  fold_left
    (fun has payment =>
       if String.eqb (Value payment) "Online Payment" then true else has)
    payments has.

(** Lines 137-151: [adType], [price] and [hasOnlinePayment], updated step by
    step. *)
Record Scan := mkScan {
  adType : string;
  price : string;
  hasOnlinePayment : bool
}.

Definition scan_step (acc : Scan) (step : Step) : Scan :=
  if String.eqb (Name step) "delivery_and_payment_methods" then
    mkScan (adType acc) (price acc)
      (payment_loop (hasOnlinePayment acc)
         (PaymentMethods_Data (PaymentMethods (Data step))))
  else if String.eqb (Name step) "product_detail" then
    mkScan (AdType (Values (Data step))) (Price (Values (Data step)))
      (hasOnlinePayment acc)
  else acc.

Definition scan_loop (steps : list Step) : Scan :=
  fold_left scan_step steps (mkScan "" "" false).

(** Lines 163-173: [title], [brand] and [imageSrc], updated step by step. *)
Record Fields := mkFields {
  title : string;
  brand : string;
  imageSrc : string
}.

Definition fields_step (acc : Fields) (step : Step) : Fields :=
  if String.eqb (Name step) "search_product" then
    mkFields (InputSearchValue_Value (InputSearchValue (Data step)))
      (brand acc) (imageSrc acc)
  else if String.eqb (Name step) "product_detail" then
    mkFields (title acc) (Brand (Values (Data step)))
      match Images (Values (Data step)) with
      | image :: _ => Src image
      | [] => imageSrc acc
      end
  else acc.

Definition fields_loop (steps : list Step) : Fields :=
  fold_left fields_step steps (mkFields "" "" "").

(** ** The pass over the fetched ads *)

(** The lines written with [log.Printf]. *)
Inductive LogLine :=
  | LogUnmarshalError (adID : string) (err : error)
  | LogMissingCodeNumber (adID : string)
  | LogAuctionTotal (n : Z)
  | LogOtherTotal (n : Z).

(** The variables that live across the iterations of the loop over
    [response.Ads], and the log written so far. *)
Record LoopState := mkState {
  items : list AdItem.t;
  auctionCount : Z;
  otherCount : Z;
  logged : list LogLine
}.

Definition initial : LoopState := mkState [] 0 0 [].

Definition log_line (st : LoopState) (line : LogLine) : LoopState :=
  mkState (items st) (auctionCount st) (otherCount st) (logged st ++ [line]).

Definition count_adType (st : LoopState) (adType : string) : LoopState :=
  if String.eqb adType "auction"
  then mkState (items st) (int_incr (auctionCount st)) (otherCount st) (logged st)
  else mkState (items st) (auctionCount st) (int_incr (otherCount st)) (logged st).

Definition append_item (st : LoopState) (item : AdItem.t) : LoopState :=
  mkState (items st ++ [item]) (auctionCount st) (otherCount st) (logged st).

Section Pipeline.

(** [json.Unmarshal(ad.Attributes, &attrs)] belongs to Go's library: the
    decoder is a parameter of the development. *)
Variable Unmarshal : string -> error + AdAttributes.

(** Lines 194-205: the [AdItem] literal. *)
Definition build_item (ad : Ad.t) (title description imageSrc brand price : string)
  : AdItem.t :=
  AdItem.mk (Ad.ID ad) title description (Sprintf_link (Ad.ID ad)) imageSrc
    brand (price +:+ " AED") "in stock" (Ad.CodeNumber ad).

(** Lines 103-206: one iteration of the loop over [response.Ads]. *)
Definition process_ad (st : LoopState) (ad : Ad.t) : LoopState :=
  match Unmarshal (Ad.Attributes ad) with
  | inl err => log_line st (LogUnmarshalError (Ad.ID ad) err)
  | inr attrs =>
      if negb (subcategory_loop (StepsData attrs)) then st
      else
        let scan := scan_loop (StepsData attrs) in
        let st := count_adType st (adType scan) in
        if hasOnlinePayment scan then
          let fields := fields_loop (StepsData attrs) in
          let imageSrc :=
            if negb (String.eqb (imageSrc fields) "")
            then Sprintf_image (Ad.DraftID ad) (imageSrc fields)
            else imageSrc fields in
          if String.eqb (Ad.CodeNumber ad) "" then
            log_line st (LogMissingCodeNumber (Ad.ID ad))
          else
            let description := ReplaceAll (Ad.Description ad) LRM "" in
            let title := ReplaceAll (title fields) ampersand "" in
            append_item st
              (build_item ad title description imageSrc (brand fields)
                 (price scan))
        else st
  end.

(** Lines 97-207. *)
Definition process_ads (st : LoopState) (ads : list Ad.t) : LoopState :=
  fold_left process_ad ads st.

(** [FetchAds].  Lines 57-92 build the request and send it; [reply] is what
    [client.Run] comes back with, an error or the decoded [response.Ads].  An
    error is returned as it is; otherwise the ads are processed, the two totals
    are logged and the items are returned. *)
Definition FetchAds (reply : error + list Ad.t)
  : (error + list AdItem.t) * list LogLine :=
  match reply with
  | inl err => (inl err, [])
  | inr ads =>
      let st := process_ads initial ads in
      (inr (items st),
       logged st ++ [LogAuctionTotal (auctionCount st);
                     LogOtherTotal (otherCount st)])
  end.

End Pipeline.

(** ** The properties of the specification, stated on the decoded steps *)

(** The ad matches the subcategory allow-list: some "search_product" step has
    an identifier that is a key of the allow-list. *)
Definition subcategoryMatch (steps : list Step) : Prop :=
  ∃ step, step ∈ steps ∧ Name step = "search_product" ∧
          ID_ID (ID (Data step)) ∈ dom allowedSubcategories.

(** The ad has a qualifying payment: some "delivery_and_payment_methods" step
    lists a payment whose value is the literal "Online Payment". *)
Definition hasQualifyingPayment (steps : list Step) : Prop :=
  ∃ step payment,
    step ∈ steps ∧ Name step = "delivery_and_payment_methods" ∧
    payment ∈ PaymentMethods_Data (PaymentMethods (Data step)) ∧
    Value payment = "Online Payment".

(** The last step, in sequence order, that carries the name [name]. *)
Definition last_named (name : string) (steps : list Step) : option Step :=
  last (filter (λ step, Name step = name) steps).

(** The field [f] of the last step named [name]; Go's zero value, the empty
    string, when no step has that name. *)
Definition last_field (name : string) (f : Step → string) (steps : list Step)
  : string :=
  from_option f "" (last_named name steps).

Definition step_title (step : Step) : string :=
  InputSearchValue_Value (InputSearchValue (Data step)).
Definition step_brand (step : Step) : string := Brand (Values (Data step)).
Definition step_price (step : Step) : string := Price (Values (Data step)).
Definition step_adType (step : Step) : string := AdType (Values (Data step)).

(** The source of the first image of a step; the empty string when the step
    has no image. *)
Definition step_first_image (step : Step) : string :=
  from_option Src "" (head (Images (Values (Data step)))).

(** The last "product_detail" step that has at least one image. *)
Definition last_with_image (steps : list Step) : option Step :=
  last (filter (λ step, Name step = "product_detail" ∧
                        Images (Values (Data step)) ≠ []) steps).

(** The reading of "last occurrence wins" for every extracted field. *)
Definition last_occurrence_wins (steps : list Step) : Prop :=
  title (fields_loop steps) = last_field "search_product" step_title steps ∧
  brand (fields_loop steps) = last_field "product_detail" step_brand steps ∧
  price (scan_loop steps) = last_field "product_detail" step_price steps ∧
  adType (scan_loop steps) = last_field "product_detail" step_adType steps ∧
  imageSrc (fields_loop steps) =
    last_field "product_detail" step_first_image steps.

(** [old] occurs in [s] as a run of consecutive bytes, which is what
    [strings.Contains s old] tests. *)
Definition Occurs (old s : string) : Prop :=
  ∃ before after, s = before +:+ old +:+ after.

(** Well-formed UTF-8 (RFC 3629), the test of Go's [utf8.ValidString]: every
    string that [encoding/json] decodes passes it, since the decoder replaces
    each ill-formed byte by U+FFFD.  [utf8_lead b] gives, for a first byte
    [b], the number of continuation bytes and the range of the second byte. *)
Definition in_range (lo hi : N) (c : ascii) : bool :=
  ((lo <=? N_of_ascii c) && (N_of_ascii c <=? hi))%N.

Definition utf8_lead (b : N) : option (nat * (N * N)) :=
  (if b <? 128 then Some (0%nat, (0, 0))
   else if (194 <=? b) && (b <=? 223) then Some (1%nat, (128, 191))
   else if b =? 224 then Some (2%nat, (160, 191))
   else if b =? 237 then Some (2%nat, (128, 159))
   else if (225 <=? b) && (b <=? 239) then Some (2%nat, (128, 191))
   else if b =? 240 then Some (3%nat, (144, 191))
   else if b =? 244 then Some (3%nat, (128, 143))
   else if (241 <=? b) && (b <=? 243) then Some (3%nat, (128, 191))
   else None)%N.

Fixpoint ValidString (s : string) : bool :=
  match s with
  | EmptyString => true
  | String c0 r0 =>
      match utf8_lead (N_of_ascii c0) with
      | None => false
      | Some (n, (lo, hi)) =>
          match n, r0 with
          | O, _ => ValidString r0
          | 1%nat, String c1 r1 => in_range lo hi c1 && ValidString r1
          | 2%nat, String c1 (String c2 r2) =>
              in_range lo hi c1 && in_range 128 191 c2 && ValidString r2
          | 3%nat, String c1 (String c2 (String c3 r3)) =>
              in_range lo hi c1 && in_range 128 191 c2 && in_range 128 191 c3
              && ValidString r3
          | _, _ => false
          end
      end
  end.

(** Two loop states agree on what the run hands on: the items and the two
    counters. *)
Definition same_output (st1 st2 : LoopState) : Prop :=
  items st1 = items st2 ∧ auctionCount st1 = auctionCount st2 ∧
  otherCount st1 = otherCount st2.

(** From [st] to [st'] exactly one diagnostic counter is incremented:
    [auctionCount] when the ad type is "auction", [otherCount] for every other
    ad type, the empty one included; the other counter keeps its value. *)
Definition counted_once (adType : string) (st st' : LoopState) : Prop :=
  if decide (adType = "auction")
  then auctionCount st' = int_incr (auctionCount st) ∧
       otherCount st' = otherCount st
  else auctionCount st' = auctionCount st ∧
       otherCount st' = int_incr (otherCount st).

(** Both counters are non-negative and together they are at most [n]. *)
Definition counters_within (n : Z) (st : LoopState) : Prop :=
  0 ≤ auctionCount st ∧ 0 ≤ otherCount st ∧ auctionCount st + otherCount st ≤ n.

(** The image link of a record: empty without an image source, the filled
    template otherwise. *)
Definition image_link (draftID src : string) : string :=
  if decide (src = "") then "" else Sprintf_image draftID src.

(** ** Further properties of the pass *)

(** The ad is one that the pass projects: its attributes decode, it matches
    the allow-list, it has a qualifying payment and its code number is not
    empty. *)
Definition qualifying (Unmarshal : string → error + AdAttributes) (ad : Ad.t)
  : Prop :=
  ∃ attrs, Unmarshal (Ad.Attributes ad) = inr attrs ∧
           subcategoryMatch (StepsData attrs) ∧
           hasQualifyingPayment (StepsData attrs) ∧
           Ad.CodeNumber ad ≠ "".

(** The ad is one that the pass counts: its attributes decode and it matches
    the allow-list. *)
Definition matching (Unmarshal : string → error + AdAttributes) (ad : Ad.t)
  : Prop :=
  ∃ attrs, Unmarshal (Ad.Attributes ad) = inr attrs ∧
           subcategoryMatch (StepsData attrs).

(** A counted ad whose last "product_detail" step has the ad type "auction". *)
Definition auction_ad (Unmarshal : string → error + AdAttributes) (ad : Ad.t)
  : Prop :=
  ∃ attrs, Unmarshal (Ad.Attributes ad) = inr attrs ∧
           subcategoryMatch (StepsData attrs) ∧
           last_field "product_detail" step_adType (StepsData attrs) = "auction".

(** The record of an ad with the decoded steps [steps], field by field: where
    each value comes from and what is done to it. *)
Definition projection (ad : Ad.t) (steps : list Step) : AdItem.t :=
  {| AdItem.ID := Ad.ID ad;
     AdItem.Title :=
       ReplaceAll (last_field "search_product" step_title steps) ampersand "";
     AdItem.Description := ReplaceAll (Ad.Description ad) LRM "";
     AdItem.Link := "https://ayshei.com/product/" +:+ Ad.ID ad;
     AdItem.ImageLink :=
       image_link (Ad.DraftID ad)
         (from_option step_first_image "" (last_with_image steps));
     AdItem.Brand := last_field "product_detail" step_brand steps;
     AdItem.Price := last_field "product_detail" step_price steps +:+ " AED";
     AdItem.Availability := "in stock";
     AdItem.CodeNumber := Ad.CodeNumber ad |}.

(** One encoded code point: a first byte with the continuation bytes that
    [utf8_lead] asks for, and nothing else. *)
Definition is_rune (r : string) : bool :=
  match r with
  | EmptyString => false
  | String c0 r0 =>
      match utf8_lead (N_of_ascii c0) with
      | None => false
      | Some (n, (lo, hi)) =>
          match n, r0 with
          | O, EmptyString => true
          | 1%nat, String c1 EmptyString => in_range lo hi c1
          | 2%nat, String c1 (String c2 EmptyString) =>
              in_range lo hi c1 && in_range 128 191 c2
          | 3%nat, String c1 (String c2 (String c3 EmptyString)) =>
              in_range lo hi c1 && in_range 128 191 c2 && in_range 128 191 c3
          | _, _ => false
          end
      end
  end.

(** The encoded code points of a string, in order; where the bytes stop being
    well-formed the rest is kept as one piece. *)
Fixpoint runes (s : string) : list string :=
  match s with
  | EmptyString => []
  | String c0 r0 =>
      match utf8_lead (N_of_ascii c0) with
      | None => [s]
      | Some (n, _) =>
          match n, r0 with
          | O, _ => String c0 "" :: runes r0
          | 1%nat, String c1 r1 => String c0 (String c1 "") :: runes r1
          | 2%nat, String c1 (String c2 r2) =>
              String c0 (String c1 (String c2 "")) :: runes r2
          | 3%nat, String c1 (String c2 (String c3 r3)) =>
              String c0 (String c1 (String c2 (String c3 ""))) :: runes r3
          | _, _ => [s]
          end
      end
  end.

Definition join (pieces : list string) : string :=
  foldr String.append "" pieces.

(** The strings of a decoded step that the pass copies into a record are
    well-formed UTF-8. *)
Definition well_formed_step (step : Step) : Prop :=
  ValidString (step_title step) = true ∧
  ValidString (step_brand step) = true ∧
  ValidString (step_price step) = true ∧
  Forall (λ image, ValidString (Src image) = true) (Images (Values (Data step))).

Definition well_formed_ad (ad : Ad.t) : Prop :=
  ValidString (Ad.ID ad) = true ∧ ValidString (Ad.DraftID ad) = true ∧
  ValidString (Ad.Description ad) = true ∧ ValidString (Ad.CodeNumber ad) = true.

Definition well_formed_item (item : AdItem.t) : Prop :=
  ValidString (AdItem.ID item) = true ∧
  ValidString (AdItem.Title item) = true ∧
  ValidString (AdItem.Description item) = true ∧
  ValidString (AdItem.Link item) = true ∧
  ValidString (AdItem.ImageLink item) = true ∧
  ValidString (AdItem.Brand item) = true ∧
  ValidString (AdItem.Price item) = true ∧
  ValidString (AdItem.Availability item) = true ∧
  ValidString (AdItem.CodeNumber item) = true.

(** A decoder followed by a change [g] of every decoded step. *)
Definition decode_with (g : Step → Step)
    (Unmarshal : string → error + AdAttributes) (blob : string)
  : error + AdAttributes :=
  match Unmarshal blob with
  | inl err => inl err
  | inr attrs => inr {| StepsData := g <$> StepsData attrs |}
  end.

(** A decoder followed by a reordering of the decoded steps. *)
Definition decode_reordered (reorder : list Step → list Step)
    (Unmarshal : string → error + AdAttributes) (blob : string)
  : error + AdAttributes :=
  match Unmarshal blob with
  | inl err => inl err
  | inr attrs => inr {| StepsData := reorder (StepsData attrs) |}
  end.

(** The step with its ad type replaced by [f] of it. *)
Definition with_adType (f : string → string) (step : Step) : Step :=
  {| Name := Name step;
     Data := {| ID := ID (Data step);
                InputSearchValue := InputSearchValue (Data step);
                Values := {| Brand := Brand (Values (Data step));
                             Price := Price (Values (Data step));
                             Images := Images (Values (Data step));
                             AdType := f (AdType (Values (Data step))) |};
                PaymentMethods := PaymentMethods (Data step) |} |}.

(** The step with what the pass never reads taken away: the value beside the
    identifier, and every image after the first. *)
Definition only_read_fields (step : Step) : Step :=
  {| Name := Name step;
     Data := {| ID := {| ID_ID := ID_ID (ID (Data step)); ID_Value := "" |};
                InputSearchValue := InputSearchValue (Data step);
                Values := {| Brand := Brand (Values (Data step));
                             Price := Price (Values (Data step));
                             Images := take 1 (Images (Values (Data step)));
                             AdType := AdType (Values (Data step)) |};
                PaymentMethods := PaymentMethods (Data step) |} |}.

(** ** Sample data *)

Definition no_data : StepData :=
  {| ID := {| ID_ID := ""; ID_Value := "" |};
     InputSearchValue := {| InputSearchValue_Value := "" |};
     Values := {| Brand := ""; Price := ""; Images := []; AdType := "" |};
     PaymentMethods := {| PaymentMethods_Data := [] |} |}.

Definition search_step (id text : string) : Step :=
  {| Name := "search_product";
     Data := {| ID := {| ID_ID := id; ID_Value := "" |};
                InputSearchValue := {| InputSearchValue_Value := text |};
                Values := Values no_data;
                PaymentMethods := PaymentMethods no_data |} |}.

Definition payment_step (values : list string) : Step :=
  {| Name := "delivery_and_payment_methods";
     Data := {| ID := ID no_data;
                InputSearchValue := InputSearchValue no_data;
                Values := Values no_data;
                PaymentMethods :=
                  {| PaymentMethods_Data := map (λ v, {| Value := v |}) values |} |} |}.

Definition detail_step (brand price adType : string) (images : list string) : Step :=
  {| Name := "product_detail";
     Data := {| ID := ID no_data;
                InputSearchValue := InputSearchValue no_data;
                Values := {| Brand := brand; Price := price;
                             Images := map (λ s, {| Src := s |}) images;
                             AdType := adType |};
                PaymentMethods := PaymentMethods no_data |} |}.

Definition bags : string := "212818c2-5ae3-4a95-88c9-370b3b906df0".

Definition qualifying_steps : list Step :=
  [search_step bags "Bag & Belt";
   detail_step "Acme" "100" "auction" ["abc/def.jpg"];
   payment_step ["Cash"; "Online Payment"]].

Definition cash_only_steps : list Step :=
  [search_step bags "Scarf";
   detail_step "Acme" "20" "auction" [];
   payment_step ["Cash"]].

Definition other_subcategory_steps : list Step :=
  [search_step "0000" "Lamp"; payment_step ["Online Payment"]].

Definition no_detail_steps : list Step :=
  [search_step bags "Hat"; payment_step ["Online Payment"]].

(** Two "search_product" steps and two "product_detail" steps; the second
    "product_detail" step has no image. *)
Definition duplicated_steps : list Step :=
  [search_step bags "Old";
   detail_step "First" "10" "auction" ["a.jpg"];
   search_step bags "New";
   detail_step "Second" "20" "sale" [];
   payment_step ["Online Payment"]].

(** A decoder for the sample documents: a document is named by a short tag
    here, and every other text stands for one that is not well-formed. *)
Definition sample_Unmarshal (blob : string) : error + AdAttributes :=
  if String.eqb blob "qualifying" then inr {| StepsData := qualifying_steps |}
  else if String.eqb blob "cash-only" then inr {| StepsData := cash_only_steps |}
  else if String.eqb blob "other-subcategory" then
    inr {| StepsData := other_subcategory_steps |}
  else if String.eqb blob "no-detail" then inr {| StepsData := no_detail_steps |}
  else if String.eqb blob "duplicated" then inr {| StepsData := duplicated_steps |}
  else inl "unexpected end of JSON input".

(** A fetched ad of the draft D1 whose description holds one U+200E. *)
Definition sample_ad (id code blob : string) : Ad.t :=
  Ad.mk id "D1" ("A fine" +:+ LRM +:+ " thing") code blob.

(** A reply of five ads: two counted as auctions, of which one is projected,
    one outside the allow-list, one counted with an empty ad type and
    projected, and one whose attributes do not decode. *)
Definition sample_ads : list Ad.t :=
  [sample_ad "a1" "0123" "qualifying";
   sample_ad "a2" "0456" "cash-only";
   sample_ad "a3" "0789" "other-subcategory";
   sample_ad "a5" "0321" "no-detail";
   sample_ad "a4" "0654" "{"].

(** ** The allow-list *)

Lemma allowedSubcategories_size : size allowedSubcategories = 9%nat.
Proof. by vm_compute. Qed.

Lemma allowedSubcategories_all_true k v :
  allowedSubcategories !! k = Some v → v = true.
Proof.
  revert k v. change (map_Forall (λ _ v, v = true) allowedSubcategories).
  unfold allowedSubcategories.
  repeat (apply map_Forall_insert_2; [done|]).
  apply map_Forall_empty.
Qed.

Lemma allowed_dom k : allowed k = true ↔ k ∈ dom allowedSubcategories.
Proof.
  unfold allowed. rewrite elem_of_dom. split.
  - destruct (allowedSubcategories !! k) eqn:E; [eauto | done].
  - intros [v Hv]. rewrite Hv. simpl. by eapply allowedSubcategories_all_true.
Qed.

(** ** The loops against the properties of the specification *)

Lemma subcategory_loop_spec steps :
  subcategory_loop steps = true ↔ subcategoryMatch steps.
Proof.
  unfold subcategoryMatch. induction steps as [|step rest IH]; simpl.
  - split; [done|]. intros (s & Hin & _). by apply elem_of_nil in Hin.
  - destruct (String.eqb_spec (Name step) "search_product") as [Hn|Hn]; simpl.
    + destruct (allowed (ID_ID (ID (Data step)))) eqn:Ha.
      * split; [|done]. intros _. exists step.
        split; [apply list_elem_of_here|]. split; [done|]. by apply allowed_dom.
      * rewrite IH. split.
        -- intros (s & Hin & Hs). exists s. split; [by apply list_elem_of_further|done].
        -- intros (s & Hin & Hname & Hdom). apply elem_of_cons in Hin as [->|Hin].
           ++ apply allowed_dom in Hdom. congruence.
           ++ eauto.
    + rewrite IH. split.
      * intros (s & Hin & Hs). exists s. split; [by apply list_elem_of_further|done].
      * intros (s & Hin & Hname & Hdom). apply elem_of_cons in Hin as [->|Hin];
          [done | eauto].
Qed.

Lemma subcategory_loop_false steps :
  subcategory_loop steps = false ↔ ¬ subcategoryMatch steps.
Proof.
  rewrite <- subcategory_loop_spec. by destruct (subcategory_loop steps).
Qed.

Lemma payment_loop_spec payments has :
  payment_loop has payments = true ↔
  has = true ∨ ∃ payment, payment ∈ payments ∧ Value payment = "Online Payment".
Proof.
  unfold payment_loop. revert has.
  induction payments as [|p rest IH]; intros has; simpl.
  - split; [auto|]. intros [H|(q & Hin & _)]; [done|]. by apply elem_of_nil in Hin.
  - rewrite IH. destruct (String.eqb_spec (Value p) "Online Payment") as [Hv|Hv].
    + split; [|auto]. intros _. right. exists p. split; [apply list_elem_of_here|done].
    + split.
      * intros [H|(q & Hin & Hq)]; [auto|]. right. exists q.
        split; [by apply list_elem_of_further|done].
      * intros [H|(q & Hin & Hq)]; [auto|]. apply elem_of_cons in Hin as [->|Hin];
          [done|]. right. eauto.
Qed.

Lemma scan_fold_payment steps acc :
  hasOnlinePayment (fold_left scan_step steps acc) = true ↔
  hasOnlinePayment acc = true ∨ hasQualifyingPayment steps.
Proof.
  unfold hasQualifyingPayment. revert acc.
  induction steps as [|step rest IH]; intros acc; simpl.
  - split; [auto|]. intros [H|(s & p & Hin & _)]; [done|]. by apply elem_of_nil in Hin.
  - rewrite IH. unfold scan_step.
    destruct (String.eqb_spec (Name step) "delivery_and_payment_methods") as [Hn|Hn];
      simpl.
    + rewrite payment_loop_spec. split.
      * intros [[H|(p & Hp & Hv)]|(s & p & Hin & Hs)]; [auto| |].
        -- right. exists step, p. split; [apply list_elem_of_here|done].
        -- right. exists s, p. split; [by apply list_elem_of_further|done].
      * intros [H|(s & p & Hin & Hname & Hp & Hv)]; [auto|].
        apply elem_of_cons in Hin as [->|Hin]; [left; right; eauto|].
        right. exists s, p. eauto.
    + assert (hasOnlinePayment
                (if String.eqb (Name step) "product_detail"
                 then mkScan (AdType (Values (Data step))) (Price (Values (Data step)))
                        (hasOnlinePayment acc)
                 else acc) = hasOnlinePayment acc) as ->.
      { by destruct (String.eqb (Name step) "product_detail"). }
      split.
      * intros [H|(s & p & Hin & Hs)]; [auto|]. right. exists s, p.
        split; [by apply list_elem_of_further|done].
      * intros [H|(s & p & Hin & Hname & Hrest)]; [auto|].
        apply elem_of_cons in Hin as [->|Hin]; [done|]. right. exists s, p. eauto.
Qed.

Lemma scan_loop_payment steps :
  hasOnlinePayment (scan_loop steps) = true ↔ hasQualifyingPayment steps.
Proof.
  unfold scan_loop. rewrite scan_fold_payment. simpl. split; [|auto].
  by intros [H|H].
Qed.

Lemma scan_loop_no_payment steps :
  hasOnlinePayment (scan_loop steps) = false ↔ ¬ hasQualifyingPayment steps.
Proof.
  rewrite <- scan_loop_payment. by destruct (hasOnlinePayment (scan_loop steps)).
Qed.

(** ** Which step an extracted field comes from *)

Lemma scan_loop_snoc steps step :
  scan_loop (steps ++ [step]) = scan_step (scan_loop steps) step.
Proof. unfold scan_loop. by rewrite fold_left_app. Qed.

Lemma fields_loop_snoc steps step :
  fields_loop (steps ++ [step]) = fields_step (fields_loop steps) step.
Proof. unfold fields_loop. by rewrite fold_left_app. Qed.

Lemma last_named_nil name : last_named name [] = None.
Proof. done. Qed.

Lemma last_named_snoc name steps step :
  last_named name (steps ++ [step]) =
  if decide (Name step = name) then Some step else last_named name steps.
Proof.
  unfold last_named. rewrite filter_app, filter_cons, filter_nil.
  case_decide; [apply last_snoc | by rewrite app_nil_r].
Qed.

Lemma last_field_snoc name f steps step :
  last_field name f (steps ++ [step]) =
  if decide (Name step = name) then f step else last_field name f steps.
Proof. unfold last_field. rewrite last_named_snoc. by case_decide. Qed.

Lemma last_with_image_snoc steps step :
  last_with_image (steps ++ [step]) =
  if decide (Name step = "product_detail" ∧ Images (Values (Data step)) ≠ [])
  then Some step else last_with_image steps.
Proof.
  unfold last_with_image. rewrite filter_app, filter_cons, filter_nil.
  case_decide; [apply last_snoc | by rewrite app_nil_r].
Qed.

(** Unfolds one step of a loop at the end of the sequence and decides the two
    name tests of the step. *)
Ltac last_step :=
  rewrite ?scan_loop_snoc, ?fields_loop_snoc, ?last_field_snoc;
  unfold scan_step, fields_step;
  repeat match goal with
         | |- context [String.eqb ?a ?b] => destruct (String.eqb_spec a b)
         end;
  repeat case_decide; simpl; try done; try congruence.

Lemma title_last steps :
  title (fields_loop steps) = last_field "search_product" step_title steps.
Proof. induction steps as [|step steps IH] using rev_ind; [done|]. last_step. Qed.

Lemma brand_last steps :
  brand (fields_loop steps) = last_field "product_detail" step_brand steps.
Proof. induction steps as [|step steps IH] using rev_ind; [done|]. last_step. Qed.

Lemma price_last steps :
  price (scan_loop steps) = last_field "product_detail" step_price steps.
Proof. induction steps as [|step steps IH] using rev_ind; [done|]. last_step. Qed.

Lemma adType_last steps :
  adType (scan_loop steps) = last_field "product_detail" step_adType steps.
Proof. induction steps as [|step steps IH] using rev_ind; [done|]. last_step. Qed.

Lemma imageSrc_last_with_image steps :
  imageSrc (fields_loop steps) =
  from_option step_first_image "" (last_with_image steps).
Proof.
  induction steps as [|step steps IH] using rev_ind; [done|].
  rewrite fields_loop_snoc, last_with_image_snoc. unfold fields_step.
  destruct (String.eqb_spec (Name step) "search_product") as [Hs|Hs]; simpl.
  - rewrite decide_False; [done|]. intros [Hd _]. congruence.
  - destruct (String.eqb_spec (Name step) "product_detail") as [Hd|Hd]; simpl.
    + unfold step_first_image.
      destruct (Images (Values (Data step))) as [|image images] eqn:Himg.
      * rewrite decide_False; [done|]. by intros [_ H].
      * rewrite decide_True; [|done]. simpl. by rewrite Himg.
    + rewrite decide_False; [done|]. by intros [H _].
Qed.

(** ** Occurrences of a byte string, and [ReplaceAll] *)

Lemma append_empty_l s : "" +:+ s = s.
Proof. done. Qed.

Lemma append_String c s t : String c s +:+ t = String c (s +:+ t).
Proof. done. Qed.

Lemma prefix_empty s : String.prefix "" s = true.
Proof. by destruct s. Qed.

Lemma prefix_true_inv old s :
  String.prefix old s = true → ∃ after, s = old +:+ after.
Proof.
  revert s. induction old as [|a old IH]; intros [|b s] H; simpl in *;
    try done; try by eexists.
  destruct (ascii_dec a b) as [->|]; [|done].
  destruct (IH s H) as [after ->]. by exists after.
Qed.

Lemma prefix_append old after : String.prefix old (old +:+ after) = true.
Proof.
  induction old as [|a old IH]; simpl; [by destruct after|].
  destruct (ascii_dec a a); [done | congruence].
Qed.

Lemma Occurs_empty old : Occurs old "" → old = "".
Proof.
  intros (before & after & H). by destruct before, old.
Qed.

Lemma Occurs_cons_inv old c t :
  Occurs old (String c t) → String.prefix old (String c t) = true ∨ Occurs old t.
Proof.
  intros (before & after & H). destruct before as [|b before].
  - left. rewrite H, append_empty_l. apply prefix_append.
  - right. rewrite append_String in H. injection H as _ ->.
    by exists before, after.
Qed.

Lemma not_Occurs_cons old c t :
  String.prefix old (String c t) = false → ¬ Occurs old t →
  ¬ Occurs old (String c t).
Proof. intros Hp Ht [H|H]%Occurs_cons_inv; [congruence | done]. Qed.

(** After [ReplaceAll s "&" ""] no ampersand is left. *)
Lemma ReplaceAll_ampersand s : ¬ Occurs ampersand (ReplaceAll s ampersand "").
Proof.
  unfold ReplaceAll, ampersand. induction s as [|c s IH].
  - by intros ?%Occurs_empty.
  - cbn [replace_from String.prefix String.length Nat.sub].
    destruct (ascii_dec "&" c) as [<-|Hc];
      [by rewrite prefix_empty, append_empty_l|].
    apply not_Occurs_cons; [|done]. cbn [String.prefix].
    destruct (ascii_dec "&" c); [congruence | done].
Qed.

(** The two equations of [ReplaceAll s LRM ""]: an occurrence at the front is
    dropped, any other first byte is kept. *)
Lemma strip_LRM_drop s :
  replace_from LRM "" 0
    (String "226" (String "128" (String "142" s))) = replace_from LRM "" 0 s.
Proof. unfold LRM. simpl. by rewrite prefix_empty. Qed.

Lemma strip_LRM_keep c s :
  String.prefix LRM (String c s) = false →
  replace_from LRM "" 0 (String c s) = String c (replace_from LRM "" 0 s).
Proof. intros H. cbn [replace_from]. by rewrite H. Qed.

Lemma prefix_LRM_other c s : c ≠ "226"%char → String.prefix LRM (String c s) = false.
Proof.
  intros H. unfold LRM. cbn [String.prefix].
  destruct (ascii_dec "226" c); [congruence | done].
Qed.

Lemma keep_other c s :
  c ≠ "226"%char → ¬ Occurs LRM (replace_from LRM "" 0 s) →
  ¬ Occurs LRM (replace_from LRM "" 0 (String c s)).
Proof.
  intros Hc Hs. rewrite strip_LRM_keep by by apply prefix_LRM_other.
  apply not_Occurs_cons; [by apply prefix_LRM_other | done].
Qed.

Lemma in_range_other lo hi c :
  in_range lo hi c = true → (hi ≤ 191)%N → c ≠ "226"%char.
Proof.
  unfold in_range. intros H Hhi ->. change (N_of_ascii "226") with 226%N in H.
  apply andb_prop in H as [_ H]. apply N.leb_le in H. lia.
Qed.

Lemma utf8_lead_range b n lo hi :
  utf8_lead b = Some (n, (lo, hi)) → (hi ≤ 191)%N.
Proof.
  unfold utf8_lead. intros H.
  repeat match type of H with
         | (if ?c then _ else _) = _ => destruct c
         end; by simplify_eq.
Qed.

Lemma utf8_lead_226 n lo hi :
  utf8_lead (N_of_ascii "226") = Some (n, (lo, hi)) →
  n = 2%nat ∧ lo = 128%N ∧ hi = 191%N.
Proof. vm_compute. intros H. by simplify_eq. Qed.

Lemma prefix_LRM_mismatch c1 c2 s :
  c1 ≠ "128"%char ∨ c2 ≠ "142"%char →
  String.prefix LRM (String "226" (String c1 (String c2 s))) = false.
Proof.
  intros H. unfold LRM. cbn [String.prefix].
  destruct (ascii_dec "226" "226"); [|done].
  destruct (ascii_dec "128" c1); [|done].
  destruct (ascii_dec "142" c2); [|done]. destruct H; congruence.
Qed.

Lemma keep_rune_226 c1 c2 s :
  c1 ≠ "128"%char ∨ c2 ≠ "142"%char →
  c1 ≠ "226"%char → c2 ≠ "226"%char →
  ¬ Occurs LRM (replace_from LRM "" 0 s) →
  ¬ Occurs LRM (replace_from LRM "" 0 (String "226" (String c1 (String c2 s)))).
Proof.
  intros Hne H1 H2 Hs.
  rewrite strip_LRM_keep by by apply prefix_LRM_mismatch.
  rewrite !strip_LRM_keep by by apply prefix_LRM_other.
  apply not_Occurs_cons; [by apply prefix_LRM_mismatch|].
  do 2 (apply not_Occurs_cons; [by apply prefix_LRM_other|]). done.
Qed.

(** On well-formed UTF-8 the bytes E2 80 8E can only be a whole encoded
    U+200E, so after [ReplaceAll s LRM ""] none is left. *)
Lemma strip_LRM_bounded n s :
  (String.length s ≤ n)%nat → ValidString s = true →
  ¬ Occurs LRM (replace_from LRM "" 0 s).
Proof.
  revert s. induction n as [|n IH]; intros [|c0 r0] Hlen Hv;
    try (by intros ?%Occurs_empty); simpl in Hlen; [lia|].
  cbn [ValidString] in Hv.
  destruct (utf8_lead (N_of_ascii c0)) as [[k [lo hi]]|] eqn:Hlead; [|done].
  pose proof (utf8_lead_range _ _ _ _ Hlead) as Hhi.
  assert (∀ c, in_range 128 191 c = true → c ≠ "226"%char) as Hcont.
  { intros c Hc. by eapply in_range_other. }
  destruct (ascii_dec c0 "226") as [->|Hc0].
  - apply utf8_lead_226 in Hlead as (-> & -> & ->).
    destruct r0 as [|c1 [|c2 r2]]; try done.
    apply andb_prop in Hv as [[H1 H2]%andb_prop Hv].
    destruct (ascii_dec c1 "128") as [->|Hc1];
      [destruct (ascii_dec c2 "142") as [->|Hc2]|].
    + rewrite strip_LRM_drop. apply IH; [simpl in Hlen; lia | done].
    + apply keep_rune_226; auto. apply IH; [simpl in Hlen; lia | done].
    + apply keep_rune_226; auto. apply IH; [simpl in Hlen; lia | done].
  - apply keep_other; [done|].
    destruct k as [|[|[|[|k]]]].
    + apply IH; [lia | done].
    + destruct r0 as [|c1 r1]; [done|].
      apply andb_prop in Hv as [H1 Hv].
      apply keep_other; [by eapply in_range_other|].
      apply IH; [simpl in Hlen; lia | done].
    + destruct r0 as [|c1 [|c2 r2]]; try done.
      apply andb_prop in Hv as [[H1 H2]%andb_prop Hv].
      apply keep_other; [by eapply in_range_other|].
      apply keep_other; [auto|].
      apply IH; [simpl in Hlen; lia | done].
    + destruct r0 as [|c1 [|c2 [|c3 r3]]]; try done.
      apply andb_prop in Hv as [[[H1 H2]%andb_prop H3]%andb_prop Hv].
      apply keep_other; [by eapply in_range_other|].
      do 2 (apply keep_other; [auto|]).
      apply IH; [simpl in Hlen; lia | done].
    + by destruct r0.
Qed.

Lemma ReplaceAll_LRM s :
  ValidString s = true → ¬ Occurs LRM (ReplaceAll s LRM "").
Proof. intros H. by apply (strip_LRM_bounded (String.length s)). Qed.

(** ** The loop state *)

Lemma int_incr_no_overflow n :
  - 2 ^ 63 ≤ n < 2 ^ 63 - 1 → int_incr n = n + 1.
Proof.
  intros H. unfold int_incr, int_wrap. rewrite Z.mod_small; lia.
Qed.

Lemma items_count_adType st a : items (count_adType st a) = items st.
Proof. unfold count_adType. by destruct (String.eqb a "auction"). Qed.

Lemma logged_count_adType st a : logged (count_adType st a) = logged st.
Proof. unfold count_adType. by destruct (String.eqb a "auction"). Qed.

Lemma count_adType_counted_once st a : counted_once a st (count_adType st a).
Proof.
  unfold counted_once, count_adType.
  destruct (String.eqb_spec a "auction"); case_decide; done.
Qed.

Lemma count_adType_same_output st1 st2 a :
  same_output st1 st2 → same_output (count_adType st1 a) (count_adType st2 a).
Proof.
  intros (Hi & Ha & Ho). unfold same_output, count_adType.
  destruct (String.eqb a "auction"); simpl; by rewrite Hi, Ha, Ho.
Qed.

Lemma last_named_absent name steps :
  (∀ step, step ∈ steps → Name step ≠ name) → last_named name steps = None.
Proof.
  induction steps as [|step steps IH] using rev_ind; intros H; [done|].
  rewrite last_named_snoc, decide_False.
  - apply IH. intros s Hs. apply H, elem_of_app. by left.
  - apply H, elem_of_app. right. apply list_elem_of_here.
Qed.

Section Claims.

Variable Unmarshal : string → error + AdAttributes.

(** *** The five ways through one iteration *)

Lemma process_ad_malformed st ad err :
  Unmarshal (Ad.Attributes ad) = inl err →
  process_ad Unmarshal st ad = log_line st (LogUnmarshalError (Ad.ID ad) err).
Proof. intros H. unfold process_ad. by rewrite H. Qed.

Lemma process_ad_unmatched st ad attrs :
  Unmarshal (Ad.Attributes ad) = inr attrs →
  ¬ subcategoryMatch (StepsData attrs) →
  process_ad Unmarshal st ad = st.
Proof.
  intros H Hm%subcategory_loop_false. unfold process_ad.
  by rewrite H, Hm.
Qed.

Lemma process_ad_unpaid st ad attrs :
  Unmarshal (Ad.Attributes ad) = inr attrs →
  subcategoryMatch (StepsData attrs) →
  ¬ hasQualifyingPayment (StepsData attrs) →
  process_ad Unmarshal st ad = count_adType st (adType (scan_loop (StepsData attrs))).
Proof.
  intros H Hm%subcategory_loop_spec Hp%scan_loop_no_payment.
  unfold process_ad. by rewrite H, Hm, Hp.
Qed.

Lemma process_ad_missing_code st ad attrs :
  Unmarshal (Ad.Attributes ad) = inr attrs →
  subcategoryMatch (StepsData attrs) →
  hasQualifyingPayment (StepsData attrs) →
  Ad.CodeNumber ad = "" →
  process_ad Unmarshal st ad =
  log_line (count_adType st (adType (scan_loop (StepsData attrs))))
    (LogMissingCodeNumber (Ad.ID ad)).
Proof.
  intros H Hm%subcategory_loop_spec Hp%scan_loop_payment Hc.
  unfold process_ad. by rewrite H, Hm, Hp, Hc.
Qed.

Lemma process_ad_emits st ad attrs :
  Unmarshal (Ad.Attributes ad) = inr attrs →
  subcategoryMatch (StepsData attrs) →
  hasQualifyingPayment (StepsData attrs) →
  Ad.CodeNumber ad ≠ "" →
  process_ad Unmarshal st ad =
  append_item (count_adType st (adType (scan_loop (StepsData attrs))))
    (build_item ad
       (ReplaceAll (title (fields_loop (StepsData attrs))) ampersand "")
       (ReplaceAll (Ad.Description ad) LRM "")
       (image_link (Ad.DraftID ad) (imageSrc (fields_loop (StepsData attrs))))
       (brand (fields_loop (StepsData attrs)))
       (price (scan_loop (StepsData attrs)))).
Proof.
  intros H Hm%subcategory_loop_spec Hp%scan_loop_payment Hc%String.eqb_neq.
  unfold process_ad. rewrite H, Hm, Hp, Hc. simpl.
  unfold image_link.
  destruct (String.eqb_spec (imageSrc (fields_loop (StepsData attrs))) "");
    case_decide; simpl; congruence.
Qed.

(** *** What an iteration does to the items and the counters *)

Lemma process_ad_same_output st1 st2 ad :
  same_output st1 st2 → same_output (process_ad Unmarshal st1 ad) (process_ad Unmarshal st2 ad).
Proof.
  intros Hs. unfold process_ad.
  destruct (Unmarshal (Ad.Attributes ad)) as [err|attrs]; [done|].
  destruct (subcategory_loop (StepsData attrs)); [|done]. simpl.
  pose proof (count_adType_same_output _ _
                (adType (scan_loop (StepsData attrs))) Hs) as (Hi & Ha & Ho).
  destruct (hasOnlinePayment (scan_loop (StepsData attrs))); [|done].
  destruct (String.eqb (Ad.CodeNumber ad) ""); [done|].
  unfold same_output. simpl. by rewrite Hi.
Qed.

Lemma process_ads_same_output st1 st2 ads :
  same_output st1 st2 → same_output (process_ads Unmarshal st1 ads) (process_ads Unmarshal st2 ads).
Proof.
  revert st1 st2. induction ads as [|ad ads IH]; intros st1 st2 Hs; [done|].
  simpl. by apply IH, process_ad_same_output.
Qed.

Lemma process_ad_items st ad :
  items (process_ad Unmarshal st ad) = items st ++ items (process_ad Unmarshal initial ad).
Proof.
  unfold process_ad.
  destruct (Unmarshal (Ad.Attributes ad)) as [err|attrs];
    [by rewrite app_nil_r|].
  destruct (subcategory_loop (StepsData attrs)); simpl; [|by rewrite app_nil_r].
  destruct (hasOnlinePayment (scan_loop (StepsData attrs)));
    [|by rewrite !items_count_adType, app_nil_r].
  destruct (String.eqb (Ad.CodeNumber ad) ""); simpl;
    by rewrite !items_count_adType, ?app_nil_r.
Qed.

Lemma process_ads_items st ads :
  items (process_ads Unmarshal st ads) =
  items st ++ flat_map (λ ad, items (process_ad Unmarshal initial ad)) ads.
Proof.
  revert st. induction ads as [|ad ads IH]; intros st.
  - simpl. by rewrite app_nil_r.
  - change (process_ads Unmarshal st (ad :: ads))
      with (process_ads Unmarshal (process_ad Unmarshal st ad) ads).
    rewrite IH, process_ad_items. simpl. by rewrite <- app_assoc.
Qed.

Lemma process_ads_skip st before ad after :
  process_ad Unmarshal (process_ads Unmarshal st before) ad = process_ads Unmarshal st before →
  process_ads Unmarshal st (before ++ ad :: after) = process_ads Unmarshal st (before ++ after).
Proof.
  intros H. unfold process_ads in *. rewrite !fold_left_app. simpl.
  by rewrite H.
Qed.

Lemma process_ad_code_invariant st ad :
  Forall (λ item, AdItem.CodeNumber item ≠ "") (items st) →
  Forall (λ item, AdItem.CodeNumber item ≠ "") (items (process_ad Unmarshal st ad)).
Proof.
  intros Hst. unfold process_ad.
  destruct (Unmarshal (Ad.Attributes ad)) as [err|attrs]; [done|].
  destruct (subcategory_loop (StepsData attrs)); simpl; [|done].
  destruct (hasOnlinePayment (scan_loop (StepsData attrs)));
    [|by rewrite items_count_adType].
  destruct (String.eqb_spec (Ad.CodeNumber ad) ""); simpl;
    rewrite items_count_adType; [done|].
  apply Forall_app. split; [done|]. by apply Forall_singleton.
Qed.

Lemma process_ads_code_invariant st ads :
  Forall (λ item, AdItem.CodeNumber item ≠ "") (items st) →
  Forall (λ item, AdItem.CodeNumber item ≠ "") (items (process_ads Unmarshal st ads)).
Proof.
  revert st. induction ads as [|ad ads IH]; intros st Hst; [done|].
  simpl. by apply IH, process_ad_code_invariant.
Qed.

Lemma FetchAds_items ads :
  fst (FetchAds Unmarshal (inr ads)) =
  inr (flat_map (λ ad, items (process_ad Unmarshal initial ad)) ads).
Proof. unfold FetchAds. simpl. by rewrite process_ads_items. Qed.

Lemma FetchAds_without before ad after :
  items (process_ad Unmarshal initial ad) = [] →
  fst (FetchAds Unmarshal (inr (before ++ ad :: after))) =
  fst (FetchAds Unmarshal (inr (before ++ after))).
Proof.
  intros H. rewrite !FetchAds_items, !flat_map_app. simpl. by rewrite H.
Qed.

Lemma process_ad_item_shape ad item :
  item ∈ items (process_ad Unmarshal initial ad) →
  ∃ title image brand price,
    item = build_item ad (ReplaceAll title ampersand "")
             (ReplaceAll (Ad.Description ad) LRM "") image brand price.
Proof.
  unfold process_ad.
  destruct (Unmarshal (Ad.Attributes ad)) as [err|attrs];
    [by intros ?%elem_of_nil|].
  destruct (subcategory_loop (StepsData attrs)); simpl;
    [|by intros ?%elem_of_nil].
  destruct (hasOnlinePayment (scan_loop (StepsData attrs)));
    [|rewrite items_count_adType; by intros ?%elem_of_nil].
  destruct (String.eqb (Ad.CodeNumber ad) ""); simpl;
    rewrite items_count_adType; [by intros ?%elem_of_nil|].
  intros ->%list_elem_of_singleton. eauto.
Qed.

(** *** The counters do not wrap in a run *)

Lemma count_adType_within n st a :
  n < 2 ^ 63 - 1 → counters_within n st →
  counters_within (n + 1) (count_adType st a).
Proof.
  intros Hn (Ha & Ho & Hsum). unfold counters_within, count_adType.
  destruct (String.eqb a "auction"); simpl;
    rewrite int_incr_no_overflow by lia; lia.
Qed.

Lemma process_ad_within n st ad :
  n < 2 ^ 63 - 1 → counters_within n st →
  counters_within (n + 1) (process_ad Unmarshal st ad).
Proof.
  intros Hn Hst.
  assert (counters_within (n + 1) st) as Hweak.
  { destruct Hst as (? & ? & ?). unfold counters_within. lia. }
  pose proof (count_adType_within n st) as Hcount. unfold process_ad.
  destruct (Unmarshal (Ad.Attributes ad)) as [err|attrs]; [done|].
  destruct (subcategory_loop (StepsData attrs)); simpl; [|done].
  destruct (hasOnlinePayment (scan_loop (StepsData attrs))); [|by apply Hcount].
  destruct (String.eqb (Ad.CodeNumber ad) ""); by apply Hcount.
Qed.

Lemma process_ads_within n st ads :
  n + Z.of_nat (length ads) < 2 ^ 63 → counters_within n st →
  counters_within (n + Z.of_nat (length ads)) (process_ads Unmarshal st ads).
Proof.
  revert n st. induction ads as [|ad ads IH]; intros n st Hn Hst.
  - simpl. by rewrite Z.add_0_r.
  - change (process_ads Unmarshal st (ad :: ads))
      with (process_ads Unmarshal (process_ad Unmarshal st ad) ads).
    rewrite length_cons, Nat2Z.inj_succ in *.
    replace (n + Z.succ (Z.of_nat (length ads)))
      with (n + 1 + Z.of_nat (length ads)) by lia.
    apply IH; [lia|]. apply process_ad_within; [lia | done].
Qed.

(** Each counter of a run is at most the number of fetched ads. *)
Lemma counters_bounded ads :
  Z.of_nat (length ads) < 2 ^ 63 →
  counters_within (Z.of_nat (length ads)) (process_ads Unmarshal initial ads).
Proof.
  intros H. apply (process_ads_within 0 initial ads); [done|].
  unfold counters_within. simpl. lia.
Qed.

(** *** The claims *)

(** C1: an ad whose decoded steps hold no "search_product" step with an
    identifier of the allow-list leaves the loop state as it was, whatever its
    payment methods are: neither counter moves and no record is appended; the
    run returns and logs what it does without that ad. *)
Theorem unmatched_ad_contributes_nothing st ad attrs :
  Unmarshal (Ad.Attributes ad) = inr attrs →
  ¬ subcategoryMatch (StepsData attrs) →
  process_ad Unmarshal st ad = st ∧
  ∀ before after,
    FetchAds Unmarshal (inr (before ++ ad :: after)) =
    FetchAds Unmarshal (inr (before ++ after)).
Proof.
  intros H Hm. split; [by eapply process_ad_unmatched|].
  intros before after. unfold FetchAds.
  rewrite process_ads_skip; [done|]. by eapply process_ad_unmatched.
Qed.

(** C2: an ad that matches the allow-list and has no payment value equal to
    "Online Payment" in a "delivery_and_payment_methods" step increments
    exactly one counter, [auctionCount] when its extracted ad type is
    "auction" and [otherCount] otherwise, and no record is emitted for it. *)
Theorem unpaid_ad_counted_not_emitted st ad attrs :
  Unmarshal (Ad.Attributes ad) = inr attrs →
  subcategoryMatch (StepsData attrs) →
  ¬ hasQualifyingPayment (StepsData attrs) →
  counted_once (adType (scan_loop (StepsData attrs))) st
    (process_ad Unmarshal st ad) ∧
  items (process_ad Unmarshal st ad) = items st ∧
  ∀ before after,
    fst (FetchAds Unmarshal (inr (before ++ ad :: after))) =
    fst (FetchAds Unmarshal (inr (before ++ after))).
Proof.
  intros H Hm Hp. rewrite (process_ad_unpaid st ad attrs H Hm Hp).
  split; [apply count_adType_counted_once|].
  split; [apply items_count_adType|].
  intros before after. apply FetchAds_without.
  rewrite (process_ad_unpaid _ ad attrs H Hm Hp). apply items_count_adType.
Qed.

(** C4: an ad whose attribute document does not decode adds no record and
    moves no counter, and the ads around it give the items and the counters
    that they give when the malformed ad is not there. *)
Theorem malformed_ad_is_isolated st ad err :
  Unmarshal (Ad.Attributes ad) = inl err →
  same_output (process_ad Unmarshal st ad) st ∧
  ∀ before after,
    same_output (process_ads Unmarshal st (before ++ ad :: after))
      (process_ads Unmarshal st (before ++ after)) ∧
    fst (FetchAds Unmarshal (inr (before ++ ad :: after))) =
    fst (FetchAds Unmarshal (inr (before ++ after))).
Proof.
  intros H. split; [by rewrite (process_ad_malformed st ad err H)|].
  intros before after. split.
  - unfold process_ads. rewrite !fold_left_app. simpl.
    apply process_ads_same_output. by rewrite (process_ad_malformed _ ad err H).
  - apply FetchAds_without. by rewrite (process_ad_malformed _ ad err H).
Qed.

(** C5: every record that [FetchAds] returns has a non-empty [CodeNumber];
    and a matching ad with a qualifying payment and an empty code number
    emits no record although one counter has been incremented for it. *)
Theorem codeNumber_never_empty :
  (∀ ads its log,
     FetchAds Unmarshal (inr ads) = (inr its, log) →
     Forall (λ item, AdItem.CodeNumber item ≠ "") its) ∧
  (∀ st ad attrs,
     Unmarshal (Ad.Attributes ad) = inr attrs →
     subcategoryMatch (StepsData attrs) →
     hasQualifyingPayment (StepsData attrs) →
     Ad.CodeNumber ad = "" →
     items (process_ad Unmarshal st ad) = items st ∧
     counted_once (adType (scan_loop (StepsData attrs))) st
       (process_ad Unmarshal st ad)).
Proof.
  split.
  - intros ads its log H. unfold FetchAds in H. simplify_eq.
    by apply process_ads_code_invariant.
  - intros st ad attrs H Hm Hp Hc.
    rewrite (process_ad_missing_code st ad attrs H Hm Hp Hc). simpl.
    split; [apply items_count_adType|].
    pose proof (count_adType_counted_once st
                  (adType (scan_loop (StepsData attrs)))) as Hcount.
    unfold counted_once in *. by case_decide.
Qed.

(** C6, as amended: a matching ad with a qualifying payment and a non-empty
    code number appends exactly one record, its own, whatever its ad type is
    ("auction" included): the ad type moves a counter and excludes nothing. *)
Theorem paid_ad_with_code_is_emitted st ad attrs :
  Unmarshal (Ad.Attributes ad) = inr attrs →
  subcategoryMatch (StepsData attrs) →
  hasQualifyingPayment (StepsData attrs) →
  Ad.CodeNumber ad ≠ "" →
  ∃ item,
    items (process_ad Unmarshal st ad) = items st ++ [item] ∧
    AdItem.ID item = Ad.ID ad ∧
    AdItem.CodeNumber item = Ad.CodeNumber ad ∧
    counted_once (adType (scan_loop (StepsData attrs))) st
      (process_ad Unmarshal st ad).
Proof.
  intros H Hm Hp Hc. rewrite (process_ad_emits st ad attrs H Hm Hp Hc).
  eexists. simpl. rewrite items_count_adType. repeat split.
  pose proof (count_adType_counted_once st
                (adType (scan_loop (StepsData attrs)))) as Hcount.
  unfold counted_once in *. by case_decide.
Qed.

(** C7: the record of a projected ad has an empty [ImageLink] when the
    extracted image source is empty, and otherwise the template filled with
    the draft id and the image source as they are; the template is the one
    that gives the stated link for the source abc/def.jpg and the draft D1. *)
Theorem imageLink_follows_template :
  image_link "D1" "abc/def.jpg" =
    "https://ayshei.com/_next/image?url=https://storage.ayshei.com/prod/public/drafts/D1/web/abc/def.jpg&amp;w=3840&amp;q=75" ∧
  ∀ st ad attrs,
    Unmarshal (Ad.Attributes ad) = inr attrs →
    subcategoryMatch (StepsData attrs) →
    hasQualifyingPayment (StepsData attrs) →
    Ad.CodeNumber ad ≠ "" →
    ∃ item,
      items (process_ad Unmarshal st ad) = items st ++ [item] ∧
      AdItem.ImageLink item =
        if decide (imageSrc (fields_loop (StepsData attrs)) = "") then ""
        else "https://ayshei.com/_next/image?url=https://storage.ayshei.com/prod/public/drafts/"
               +:+ Ad.DraftID ad +:+ "/web/"
               +:+ imageSrc (fields_loop (StepsData attrs))
               +:+ "&amp;w=3840&amp;q=75".
Proof.
  split; [done|]. intros st ad attrs H Hm Hp Hc.
  rewrite (process_ad_emits st ad attrs H Hm Hp Hc).
  eexists. simpl. rewrite items_count_adType. done.
Qed.

(** C8: no title that [FetchAds] returns holds an ampersand; and when the
    fetched descriptions are well-formed UTF-8, as decoded JSON strings are,
    no returned description holds U+200E. *)
Theorem title_and_description_cleaned ads its log item :
  FetchAds Unmarshal (inr ads) = (inr its, log) →
  item ∈ its →
  ¬ Occurs ampersand (AdItem.Title item) ∧
  ((∀ ad, ad ∈ ads → ValidString (Ad.Description ad) = true) →
   ¬ Occurs LRM (AdItem.Description item)).
Proof.
  intros H Hin. apply (f_equal fst) in H. rewrite FetchAds_items in H.
  simpl in H. simplify_eq.
  apply list_elem_of_In, in_flat_map in Hin as (ad & Had & Hin).
  apply list_elem_of_In in Had, Hin.
  apply process_ad_item_shape in Hin as (t & i & b & p & ->). simpl. split.
  - apply ReplaceAll_ampersand.
  - intros Hvalid. by apply ReplaceAll_LRM, Hvalid.
Qed.

(** C9: the records are a function of the fetched ads alone.  Whatever the
    counters and the log hold when the pass starts, the same ads give the same
    records; and the records are those of each ad taken alone, in the order
    of the ads. *)
Theorem projection_deterministic ads :
  (∀ count1 other1 log1 count2 other2 log2,
     items (process_ads Unmarshal (mkState [] count1 other1 log1) ads) =
     items (process_ads Unmarshal (mkState [] count2 other2 log2) ads)) ∧
  fst (FetchAds Unmarshal (inr ads)) =
    inr (flat_map (λ ad, items (process_ad Unmarshal initial ad)) ads).
Proof.
  split; [|apply FetchAds_items].
  intros. by rewrite !process_ads_items.
Qed.

(** C10: a projected ad without a "product_detail" step, or whose last
    "product_detail" step has an empty price, still emits its record, and the
    price of the record is the bare suffix, a space and AED. *)
Theorem missing_price_gives_bare_suffix st ad attrs :
  Unmarshal (Ad.Attributes ad) = inr attrs →
  subcategoryMatch (StepsData attrs) →
  hasQualifyingPayment (StepsData attrs) →
  Ad.CodeNumber ad ≠ "" →
  (∀ step, step ∈ StepsData attrs → Name step ≠ "product_detail") ∨
  (∃ step, last_named "product_detail" (StepsData attrs) = Some step ∧
           Price (Values (Data step)) = "") →
  ∃ item,
    items (process_ad Unmarshal st ad) = items st ++ [item] ∧
    AdItem.Price item = " AED".
Proof.
  intros H Hm Hp Hc Hprice. rewrite (process_ad_emits st ad attrs H Hm Hp Hc).
  eexists. simpl. rewrite items_count_adType. split; [done|]. simpl.
  rewrite price_last. unfold last_field.
  destruct Hprice as [Hnone|(step & -> & Hempty)].
  - by rewrite last_named_absent.
  - simpl. unfold step_price. by rewrite Hempty.
Qed.

End Claims.

(** C3, as amended: the title is the search text of the last
    "search_product" step; the brand, the price and the ad type are those of
    the last "product_detail" step; the image source is the first image of the
    last "product_detail" step that has an image.  Each is empty when there is
    no such step. *)
Theorem last_occurrence_fields steps :
  title (fields_loop steps) = last_field "search_product" step_title steps ∧
  brand (fields_loop steps) = last_field "product_detail" step_brand steps ∧
  price (scan_loop steps) = last_field "product_detail" step_price steps ∧
  adType (scan_loop steps) = last_field "product_detail" step_adType steps ∧
  imageSrc (fields_loop steps) =
    from_option step_first_image "" (last_with_image steps).
Proof.
  repeat split; auto using title_last, brand_last, price_last, adType_last,
    imageSrc_last_with_image.
Qed.

(** ** The claims on the sample data *)

Lemma qualifying_steps_match : subcategoryMatch qualifying_steps.
Proof. by apply subcategory_loop_spec. Qed.

Lemma qualifying_steps_paid : hasQualifyingPayment qualifying_steps.
Proof. by apply scan_loop_payment. Qed.

Lemma no_detail_steps_match : subcategoryMatch no_detail_steps.
Proof. by apply subcategory_loop_spec. Qed.

Lemma no_detail_steps_paid : hasQualifyingPayment no_detail_steps.
Proof. by apply scan_loop_payment. Qed.

Lemma cash_only_steps_match : subcategoryMatch cash_only_steps.
Proof. by apply subcategory_loop_spec. Qed.

Lemma cash_only_steps_unpaid : ¬ hasQualifyingPayment cash_only_steps.
Proof. by apply scan_loop_no_payment. Qed.

Lemma other_subcategory_steps_unmatched : ¬ subcategoryMatch other_subcategory_steps.
Proof. by apply subcategory_loop_false. Qed.

(** On bytes that are not well-formed UTF-8, removing one occurrence of
    E2 80 8E can bring the bytes of another one together. *)
Example ReplaceAll_LRM_ill_formed :
  let s := String "226" (String "128" (LRM +:+ String "142" "")) in
  ValidString s = false ∧ ReplaceAll s LRM "" = LRM.
Proof. by vm_compute. Qed.

Lemma unmatched_ad_witness :
  process_ad sample_Unmarshal initial (sample_ad "a3" "0123" "other-subcategory")
    = initial ∧
  FetchAds sample_Unmarshal
    (inr [sample_ad "a1" "0123" "qualifying";
          sample_ad "a3" "0123" "other-subcategory"]) =
  FetchAds sample_Unmarshal (inr [sample_ad "a1" "0123" "qualifying"]).
Proof.
  pose proof (unmatched_ad_contributes_nothing sample_Unmarshal initial
                (sample_ad "a3" "0123" "other-subcategory")
                {| StepsData := other_subcategory_steps |} eq_refl
                other_subcategory_steps_unmatched) as [H1 H2].
  split; [exact H1|].
  exact (H2 [sample_ad "a1" "0123" "qualifying"] []).
Defined.

Lemma unpaid_ad_witness :
  auctionCount (process_ad sample_Unmarshal initial
                  (sample_ad "a2" "0123" "cash-only")) = 1 ∧
  otherCount (process_ad sample_Unmarshal initial
                (sample_ad "a2" "0123" "cash-only")) = 0 ∧
  items (process_ad sample_Unmarshal initial
           (sample_ad "a2" "0123" "cash-only")) = [].
Proof.
  pose proof (unpaid_ad_counted_not_emitted sample_Unmarshal initial
                (sample_ad "a2" "0123" "cash-only")
                {| StepsData := cash_only_steps |} eq_refl
                cash_only_steps_match cash_only_steps_unpaid)
    as ([Ha Ho] & Hi & _).
  split; [exact Ha|]. split; [exact Ho | exact Hi].
Defined.

Lemma malformed_ad_witness :
  same_output
    (process_ad sample_Unmarshal initial (sample_ad "a4" "0123" "{"))
    initial ∧
  fst (FetchAds sample_Unmarshal
         (inr [sample_ad "a4" "0123" "{"; sample_ad "a1" "0123" "qualifying"])) =
  fst (FetchAds sample_Unmarshal (inr [sample_ad "a1" "0123" "qualifying"])).
Proof.
  pose proof (malformed_ad_is_isolated sample_Unmarshal initial
                (sample_ad "a4" "0123" "{") "unexpected end of JSON input"
                eq_refl) as [H1 H2].
  split; [exact H1|].
  exact (proj2 (H2 [] [sample_ad "a1" "0123" "qualifying"])).
Defined.

Lemma codeNumber_witness :
  items (process_ad sample_Unmarshal initial (sample_ad "a1" "" "qualifying"))
    = [] ∧
  auctionCount (process_ad sample_Unmarshal initial
                  (sample_ad "a1" "" "qualifying")) = 1.
Proof.
  pose proof (proj2 (codeNumber_never_empty sample_Unmarshal) initial
                (sample_ad "a1" "" "qualifying")
                {| StepsData := qualifying_steps |} eq_refl
                qualifying_steps_match qualifying_steps_paid eq_refl)
    as (Hi & Ha & _).
  split; [exact Hi | exact Ha].
Defined.

(** An auction ad with an allowed subcategory, an online payment and a code
    number is in the output. *)
Lemma paid_auction_ad_witness :
  adType (scan_loop qualifying_steps) = "auction" ∧
  ∃ item,
    items (process_ad sample_Unmarshal initial
             (sample_ad "a1" "0123" "qualifying")) = [item] ∧
    AdItem.ID item = "a1" ∧ AdItem.CodeNumber item = "0123".
Proof.
  split; [reflexivity|].
  destruct (paid_ad_with_code_is_emitted sample_Unmarshal initial
              (sample_ad "a1" "0123" "qualifying")
              {| StepsData := qualifying_steps |} eq_refl
              qualifying_steps_match qualifying_steps_paid
              ltac:(discriminate)) as (item & Hi & Hid & Hcode & _).
  exists item. split; [exact Hi|]. split; [exact Hid | exact Hcode].
Defined.

(** C6, as stated, fails: this auction ad matches the allow-list and has an
    online payment, and no record is emitted for it, since its code number is
    empty. *)
Lemma auction_ad_without_code_not_emitted :
  sample_Unmarshal (Ad.Attributes (sample_ad "a1" "" "qualifying")) =
    inr {| StepsData := qualifying_steps |} ∧
  subcategoryMatch qualifying_steps ∧
  hasQualifyingPayment qualifying_steps ∧
  adType (scan_loop qualifying_steps) = "auction" ∧
  items (process_ad sample_Unmarshal initial (sample_ad "a1" "" "qualifying"))
    = [] ∧
  fst (FetchAds sample_Unmarshal (inr [sample_ad "a1" "" "qualifying"])) = inr [].
Proof.
  split; [done|]. split; [apply qualifying_steps_match|].
  split; [apply qualifying_steps_paid|]. by vm_compute.
Qed.

Lemma imageLink_witness :
  ∃ item,
    items (process_ad sample_Unmarshal initial
             (sample_ad "a1" "0123" "qualifying")) = [item] ∧
    AdItem.ImageLink item =
      "https://ayshei.com/_next/image?url=https://storage.ayshei.com/prod/public/drafts/D1/web/abc/def.jpg&amp;w=3840&amp;q=75".
Proof.
  destruct (proj2 (imageLink_follows_template sample_Unmarshal) initial
              (sample_ad "a1" "0123" "qualifying")
              {| StepsData := qualifying_steps |} eq_refl
              qualifying_steps_match qualifying_steps_paid
              ltac:(discriminate)) as (item & Hi & Hlink).
  exists item. split; [exact Hi | exact Hlink].
Defined.

Lemma cleaned_witness :
  ¬ Occurs ampersand "Bag  Belt" ∧ ¬ Occurs LRM "A fine thing".
Proof.
  pose proof (title_and_description_cleaned sample_Unmarshal
                [sample_ad "a1" "0123" "qualifying"] _ _ _ eq_refl
                (list_elem_of_here _ _)) as [Htitle Hdescription].
  split; [exact Htitle|]. apply Hdescription.
  intros ad Had. apply list_elem_of_singleton in Had. by rewrite Had.
Defined.

Lemma missing_price_witness :
  ∃ item,
    items (process_ad sample_Unmarshal initial
             (sample_ad "a5" "0123" "no-detail")) = [item] ∧
    AdItem.Price item = " AED".
Proof.
  apply (missing_price_gives_bare_suffix sample_Unmarshal initial
           (sample_ad "a5" "0123" "no-detail")
           {| StepsData := no_detail_steps |} eq_refl
           no_detail_steps_match no_detail_steps_paid ltac:(discriminate)).
  left. intros step Hstep. unfold no_detail_steps in Hstep. simpl in Hstep.
  apply elem_of_cons in Hstep as [->|Hstep]; [discriminate|].
  apply list_elem_of_singleton in Hstep as ->. discriminate.
Defined.

(** C3, as stated, fails for the image source: the last "product_detail" step
    of [duplicated_steps] has no image, and the extracted image source is the
    one of the earlier "product_detail" step. *)
Lemma image_of_earlier_step_survives :
  last_named "product_detail" duplicated_steps =
    Some (detail_step "Second" "20" "sale" []) ∧
  step_first_image (detail_step "Second" "20" "sale" []) = "" ∧
  imageSrc (fields_loop duplicated_steps) = "a.jpg" ∧
  ¬ last_occurrence_wins duplicated_steps.
Proof.
  split; [by vm_compute|]. split; [done|]. split; [done|].
  intros (_ & _ & _ & _ & H). by vm_compute in H.
Qed.

(** ** Well-formed strings, one code point at a time *)

(** The four shapes of an encoded code point [r], from [H : is_rune r = true]. *)
Ltac rune_shapes r H :=
  let c0 := fresh "c0" in
  let r0 := fresh "r0" in
  let n := fresh "n" in
  let lo := fresh "lo" in
  let hi := fresh "hi" in
  let Hlead := fresh "Hlead" in
  destruct r as [|c0 r0]; [done|];
  cbn [is_rune] in H;
  destruct (utf8_lead (N_of_ascii c0)) as [[n [lo hi]]|] eqn:Hlead; [|done];
  destruct n as [|[|[|[|n]]]];
  destruct r0 as [|? [|? [|? [|? ?]]]]; try done;
  repeat match type of H with
         | _ && _ = true => apply andb_prop in H as [H ?]
         end;
  rewrite ?append_String, ?append_empty_l.

Lemma ValidString_rune r s :
  is_rune r = true → ValidString (r +:+ s) = ValidString s.
Proof.
  intros H. rune_shapes r H; cbn [ValidString]; rewrite Hlead;
    repeat match goal with
           | Hc : in_range _ _ _ = true |- _ => rewrite Hc; clear Hc
           end; done.
Qed.

Lemma runes_rune r s : is_rune r = true → runes (r +:+ s) = r :: runes s.
Proof. intros H. rune_shapes r H; cbn [runes]; by rewrite Hlead. Qed.

(** A well-formed string is empty or a code point before a well-formed
    string. *)
Lemma ValidString_split s :
  ValidString s = true →
  s = "" ∨ ∃ r rest, s = r +:+ rest ∧ is_rune r = true ∧
                     ValidString rest = true ∧
                     (String.length rest < String.length s)%nat.
Proof.
  destruct s as [|c0 r0]; [by left|]. intros H. right. cbn [ValidString] in H.
  destruct (utf8_lead (N_of_ascii c0)) as [[n [lo hi]]|] eqn:Hlead; [|done].
  destruct n as [|[|[|[|n]]]].
  - exists (String c0 ""), r0. cbn [is_rune]. rewrite Hlead. simpl.
    repeat split; [done | lia].
  - destruct r0 as [|c1 r1]; [done|]. apply andb_prop in H as [H1 H].
    exists (String c0 (String c1 "")), r1. cbn [is_rune]. rewrite Hlead. simpl.
    repeat split; [done | done | lia].
  - destruct r0 as [|c1 [|c2 r2]]; try done.
    apply andb_prop in H as [[H1 H2]%andb_prop H].
    exists (String c0 (String c1 (String c2 ""))), r2. cbn [is_rune].
    rewrite Hlead, H1, H2. simpl. repeat split; [done | lia].
  - destruct r0 as [|c1 [|c2 [|c3 r3]]]; try done.
    apply andb_prop in H as [[[H1 H2]%andb_prop H3]%andb_prop H].
    exists (String c0 (String c1 (String c2 (String c3 "")))), r3.
    cbn [is_rune]. rewrite Hlead, H1, H2, H3. simpl.
    repeat split; [done | lia].
  - by destruct r0.
Qed.

(** Induction on a well-formed string, one code point at a time. *)
Lemma ValidString_ind (P : string → Prop) :
  P "" →
  (∀ r s, is_rune r = true → ValidString s = true → P s → P (r +:+ s)) →
  ∀ s, ValidString s = true → P s.
Proof.
  intros Hnil Hcons s.
  induction s as [s IH] using (induction_ltof1 _ String.length).
  intros Hs. destruct (ValidString_split s Hs) as [->|(r & rest & -> & Hr & Hrest & Hlt)];
    [done|].
  apply Hcons; [done | done |]. by apply IH.
Qed.

(** ** The two clean-ups, byte by byte and code point by code point *)

Lemma strip_ampersand_drop s :
  replace_from ampersand "" 0 (String "&" s) = replace_from ampersand "" 0 s.
Proof.
  unfold ampersand. cbn [replace_from String.prefix String.length Nat.sub].
  destruct (ascii_dec "&" "&"); [|done]. by rewrite prefix_empty, append_empty_l.
Qed.

Lemma strip_ampersand_keep c s :
  c ≠ "&"%char →
  replace_from ampersand "" 0 (String c s) =
  String c (replace_from ampersand "" 0 s).
Proof.
  intros Hc. unfold ampersand. cbn [replace_from String.prefix].
  destruct (ascii_dec "&" c); [congruence | done].
Qed.

Lemma ReplaceAll_ampersand_bytes s :
  list_ascii_of_string (ReplaceAll s ampersand "") =
  filter (λ c, c ≠ "&"%char) (list_ascii_of_string s).
Proof.
  change (ReplaceAll s ampersand "") with (replace_from ampersand "" 0 s).
  induction s as [|c s IH]; [done|]. cbn [list_ascii_of_string].
  destruct (decide (c = "&"%char)) as [->|Hc].
  - rewrite strip_ampersand_drop, filter_cons_False; [done|]. by intros H.
  - rewrite strip_ampersand_keep, filter_cons_True by done.
    cbn [list_ascii_of_string]. by rewrite IH.
Qed.

Lemma utf8_lead_not_226 c n lo hi :
  utf8_lead (N_of_ascii c) = Some (n, (lo, hi)) → n ≠ 2%nat → c ≠ "226"%char.
Proof. intros H Hn ->. apply utf8_lead_226 in H as (? & _). done. Qed.

Lemma utf8_lead_multi b n lo hi :
  utf8_lead b = Some (S n, (lo, hi)) → (128 ≤ b ∧ 128 ≤ lo)%N.
Proof.
  unfold utf8_lead. intros H. destruct (N.ltb_spec b 128) as [|Hb]; [done|].
  repeat match type of H with
         | (if ?c then _ else _) = _ => destruct c
         end; simplify_eq; split; lia.
Qed.

Lemma in_range_not_ampersand lo hi c :
  in_range lo hi c = true → (128 ≤ lo)%N → c ≠ "&"%char.
Proof.
  unfold in_range. intros H Hlo ->. change (N_of_ascii "&") with 38%N in H.
  apply andb_prop in H as [H _]. apply N.leb_le in H. lia.
Qed.

Lemma lead_not_ampersand c n lo hi :
  utf8_lead (N_of_ascii c) = Some (S n, (lo, hi)) → c ≠ "&"%char.
Proof.
  intros H ->. apply utf8_lead_multi in H as [H _].
  change (N_of_ascii "&") with 38%N in H. lia.
Qed.

(** A code point other than the ampersand goes through the clean-up of the
    title as it is. *)
Lemma strip_ampersand_rune r s :
  is_rune r = true → r ≠ ampersand →
  replace_from ampersand "" 0 (r +:+ s) = r +:+ replace_from ampersand "" 0 s.
Proof.
  intros H Hr. rune_shapes r H.
  - rewrite strip_ampersand_keep; [done|]. intros ->. by apply Hr.
  - pose proof (utf8_lead_multi _ _ _ _ Hlead) as [_ Hlo].
    rewrite !strip_ampersand_keep;
      eauto using lead_not_ampersand, in_range_not_ampersand.
  - pose proof (utf8_lead_multi _ _ _ _ Hlead) as [_ Hlo].
    rewrite !strip_ampersand_keep;
      eauto using lead_not_ampersand, in_range_not_ampersand.
  - pose proof (utf8_lead_multi _ _ _ _ Hlead) as [_ Hlo].
    rewrite !strip_ampersand_keep;
      eauto using lead_not_ampersand, in_range_not_ampersand.
Qed.

(** A code point other than U+200E goes through the clean-up of the
    description as it is. *)
Lemma strip_LRM_rune r s :
  is_rune r = true → r ≠ LRM →
  replace_from LRM "" 0 (r +:+ s) = r +:+ replace_from LRM "" 0 s.
Proof.
  intros H Hr. pose proof in_range_other as Hcont. rune_shapes r H.
  - rewrite strip_LRM_keep; [done|].
    apply prefix_LRM_other. by eapply utf8_lead_not_226.
  - pose proof (utf8_lead_range _ _ _ _ Hlead).
    rewrite !strip_LRM_keep; [done| |]; apply prefix_LRM_other;
      eauto using utf8_lead_not_226.
  - pose proof (utf8_lead_range _ _ _ _ Hlead).
    destruct (decide (c0 = "226"%char)) as [->|Hc0].
    + rewrite (strip_LRM_keep "226").
      * rewrite !strip_LRM_keep; [done| |]; apply prefix_LRM_other; eauto.
      * apply prefix_LRM_mismatch.
        destruct (decide (a = "128"%char)) as [->|]; [|by left].
        destruct (decide (a0 = "142"%char)) as [->|]; [|by right].
        by destruct Hr.
    + rewrite !strip_LRM_keep; [done| | |]; apply prefix_LRM_other; eauto.
  - pose proof (utf8_lead_range _ _ _ _ Hlead).
    rewrite !strip_LRM_keep; [done| | | |]; apply prefix_LRM_other;
      eauto using utf8_lead_not_226.
Qed.

Lemma is_rune_LRM : is_rune LRM = true.
Proof. done. Qed.

Lemma is_rune_ampersand : is_rune ampersand = true.
Proof. done. Qed.

Lemma strip_LRM_front s :
  replace_from LRM "" 0 (LRM +:+ s) = replace_from LRM "" 0 s.
Proof. exact (strip_LRM_drop s). Qed.

Lemma strip_ampersand_front s :
  replace_from ampersand "" 0 (ampersand +:+ s) =
  replace_from ampersand "" 0 s.
Proof. exact (strip_ampersand_drop s). Qed.

Lemma join_runes s : ValidString s = true → join (runes s) = s.
Proof.
  revert s. apply ValidString_ind; [done|]. intros r s Hr _ IH.
  rewrite runes_rune by done. simpl. by rewrite IH.
Qed.

Lemma ReplaceAll_LRM_runes s :
  ValidString s = true →
  ReplaceAll s LRM "" = join (filter (λ r, r ≠ LRM) (runes s)).
Proof.
  change (ReplaceAll s LRM "") with (replace_from LRM "" 0 s).
  revert s. apply ValidString_ind; [done|]. intros r s Hr _ IH.
  rewrite runes_rune by done. destruct (decide (r = LRM)) as [->|Hne].
  - rewrite filter_cons_False by (by intros H). rewrite <- IH.
    apply strip_LRM_front.
  - rewrite filter_cons_True, strip_LRM_rune by done. simpl. by rewrite IH.
Qed.

Lemma ValidString_strip_LRM s :
  ValidString s = true → ValidString (ReplaceAll s LRM "") = true.
Proof.
  change (ReplaceAll s LRM "") with (replace_from LRM "" 0 s).
  revert s. apply ValidString_ind; [done|]. intros r s Hr _ IH.
  destruct (decide (r = LRM)) as [->|Hne].
  - by rewrite strip_LRM_front.
  - by rewrite strip_LRM_rune, ValidString_rune.
Qed.

Lemma ValidString_strip_ampersand s :
  ValidString s = true → ValidString (ReplaceAll s ampersand "") = true.
Proof.
  change (ReplaceAll s ampersand "") with (replace_from ampersand "" 0 s).
  revert s. apply ValidString_ind; [done|]. intros r s Hr _ IH.
  destruct (decide (r = ampersand)) as [->|Hne].
  - by rewrite strip_ampersand_front.
  - by rewrite strip_ampersand_rune, ValidString_rune.
Qed.

Lemma append_assoc (s t u : string) : (s +:+ t) +:+ u = s +:+ t +:+ u.
Proof. induction s as [|c s IH]; [done|]. by rewrite !append_String, IH. Qed.

Lemma ValidString_append s t :
  ValidString s = true → ValidString t = true → ValidString (s +:+ t) = true.
Proof.
  intros Hs Ht. revert s Hs. apply ValidString_ind; [done|].
  intros r s Hr _ IH. by rewrite append_assoc, ValidString_rune.
Qed.

Lemma append_cancel_l (prefix a b : string) :
  prefix +:+ a = prefix +:+ b → a = b.
Proof.
  induction prefix as [|c prefix IH]; [done|]. rewrite !append_String.
  intros H. apply IH. by simplify_eq.
Qed.

Lemma Forall2_fmap_eq {A B C} (R : A → B → Prop) (f : A → C) (g : B → C) l k :
  Forall2 R l k → (∀ x y, R x y → f x = g y) → f <$> l = g <$> k.
Proof.
  intros HF HR. induction HF as [|x y l k Hxy _ IH]; [done|].
  by rewrite !fmap_cons, (HR x y Hxy), IH.
Qed.

(** ** Which ads are counted and which are projected *)

Section Coverage.

Variable Unmarshal : string → error + AdAttributes.

#[global] Instance matching_dec ad : Decision (matching Unmarshal ad).
Proof.
  unfold matching.
  destruct (Unmarshal (Ad.Attributes ad)) as [err|attrs].
  - right. by intros (attrs & ? & _).
  - destruct (subcategory_loop (StepsData attrs)) eqn:Hm.
    + left. exists attrs. split; [done|]. by apply subcategory_loop_spec.
    + right. intros (attrs' & ? & Hs). simplify_eq.
      by apply subcategory_loop_false in Hm.
Defined.

#[global] Instance auction_ad_dec ad : Decision (auction_ad Unmarshal ad).
Proof.
  unfold auction_ad.
  destruct (Unmarshal (Ad.Attributes ad)) as [err|attrs].
  - right. by intros (attrs & ? & _).
  - destruct (subcategory_loop (StepsData attrs)) eqn:Hm.
    + destruct (decide (last_field "product_detail" step_adType
                          (StepsData attrs) = "auction")) as [Ha|Ha].
      * left. exists attrs. split; [done|]. split; [|done].
        by apply subcategory_loop_spec.
      * right. intros (attrs' & ? & _ & ?). by simplify_eq.
    + right. intros (attrs' & ? & Hs & _). simplify_eq.
      by apply subcategory_loop_false in Hm.
Defined.

#[global] Instance qualifying_dec ad : Decision (qualifying Unmarshal ad).
Proof.
  unfold qualifying.
  destruct (Unmarshal (Ad.Attributes ad)) as [err|attrs].
  - right. by intros (attrs & ? & _).
  - destruct (subcategory_loop (StepsData attrs)) eqn:Hm.
    + destruct (hasOnlinePayment (scan_loop (StepsData attrs))) eqn:Hp.
      * destruct (decide (Ad.CodeNumber ad = "")) as [Hc|Hc].
        -- right. intros (attrs' & ? & _ & _ & ?). done.
        -- left. exists attrs. split; [done|].
           split; [by apply subcategory_loop_spec|].
           split; [by apply scan_loop_payment | done].
      * right. intros (attrs' & ? & _ & Hpaid & _). simplify_eq.
        by apply scan_loop_no_payment in Hp.
    + right. intros (attrs' & ? & Hs & _). simplify_eq.
      by apply subcategory_loop_false in Hm.
Defined.

(** What a projected ad appends is its projection. *)
Lemma process_ad_projection st ad attrs :
  Unmarshal (Ad.Attributes ad) = inr attrs →
  subcategoryMatch (StepsData attrs) →
  hasQualifyingPayment (StepsData attrs) →
  Ad.CodeNumber ad ≠ "" →
  items (process_ad Unmarshal st ad) =
  items st ++ [projection ad (StepsData attrs)].
Proof.
  intros H Hm Hp Hc. rewrite (process_ad_emits Unmarshal st ad attrs H Hm Hp Hc).
  simpl. rewrite items_count_adType. unfold build_item, projection, Sprintf_link.
  by rewrite title_last, brand_last, price_last, imageSrc_last_with_image.
Qed.

Lemma process_ad_not_qualifying st ad :
  ¬ qualifying Unmarshal ad → items (process_ad Unmarshal st ad) = items st.
Proof.
  intros Hq. unfold process_ad.
  destruct (Unmarshal (Ad.Attributes ad)) as [err|attrs] eqn:H; [done|].
  destruct (subcategory_loop (StepsData attrs)) eqn:Hm; [|done]. simpl.
  destruct (hasOnlinePayment (scan_loop (StepsData attrs))) eqn:Hp;
    [|apply items_count_adType].
  destruct (String.eqb_spec (Ad.CodeNumber ad) "") as [Hc|Hc]; simpl;
    [apply items_count_adType|].
  destruct Hq. exists attrs. split; [done|].
  split; [by apply subcategory_loop_spec|].
  split; [by apply scan_loop_payment | done].
Qed.

(** The records of a run are the projections of the qualifying ads. *)
Lemma items_of_run ads :
  Forall2 (λ ad item, ∃ attrs, Unmarshal (Ad.Attributes ad) = inr attrs ∧
                               item = projection ad (StepsData attrs))
    (filter (qualifying Unmarshal) ads)
    (items (process_ads Unmarshal initial ads)).
Proof.
  rewrite process_ads_items. simpl.
  induction ads as [|ad ads IH]; [constructor|]. simpl.
  destruct (decide (qualifying Unmarshal ad)) as [Hq|Hq].
  - rewrite filter_cons_True by done.
    destruct Hq as (attrs & H & Hm & Hp & Hc).
    rewrite (process_ad_projection initial ad attrs H Hm Hp Hc). simpl.
    constructor; [eauto | done].
  - rewrite filter_cons_False by done.
    by rewrite (process_ad_not_qualifying initial ad Hq).
Qed.

(** The counters after one ad. *)
Lemma process_ad_counted st ad attrs :
  Unmarshal (Ad.Attributes ad) = inr attrs →
  subcategoryMatch (StepsData attrs) →
  same_output
    (mkState (items st) (auctionCount (process_ad Unmarshal st ad))
       (otherCount (process_ad Unmarshal st ad)) [])
    (count_adType (mkState (items st) (auctionCount st) (otherCount st) [])
       (last_field "product_detail" step_adType (StepsData attrs))).
Proof.
  intros H Hm%subcategory_loop_spec. unfold process_ad.
  rewrite H, Hm, <- adType_last. simpl. unfold same_output, count_adType.
  destruct (hasOnlinePayment (scan_loop (StepsData attrs)));
    [destruct (String.eqb (Ad.CodeNumber ad) "")|];
    by destruct (String.eqb (adType (scan_loop (StepsData attrs))) "auction").
Qed.

Lemma process_ad_not_counted st ad :
  ¬ matching Unmarshal ad →
  auctionCount (process_ad Unmarshal st ad) = auctionCount st ∧
  otherCount (process_ad Unmarshal st ad) = otherCount st.
Proof.
  intros Hno. unfold process_ad.
  destruct (Unmarshal (Ad.Attributes ad)) as [err|attrs] eqn:H; [done|].
  destruct (subcategory_loop (StepsData attrs)) eqn:Hm; [|done].
  destruct Hno. exists attrs. split; [done|]. by apply subcategory_loop_spec.
Qed.

Lemma process_ad_auctionCount st ad :
  auctionCount (process_ad Unmarshal st ad) =
  if decide (auction_ad Unmarshal ad) then int_incr (auctionCount st)
  else auctionCount st.
Proof.
  destruct (decide (auction_ad Unmarshal ad)) as [(attrs & H & Hm & Ha)|Hno].
  - destruct (process_ad_counted st ad attrs H Hm) as (_ & Hc & _).
    simpl in Hc. rewrite Hc, Ha. done.
  - destruct (decide (matching Unmarshal ad)) as [(attrs & H & Hm)|Hnm];
      [|by apply process_ad_not_counted].
    destruct (process_ad_counted st ad attrs H Hm) as (_ & Hc & _).
    simpl in Hc. rewrite Hc. unfold count_adType.
    destruct (String.eqb_spec (last_field "product_detail" step_adType
                                 (StepsData attrs)) "auction") as [Ha|Ha];
      [|done].
    destruct Hno. by exists attrs.
Qed.

Lemma process_ad_otherCount st ad :
  otherCount (process_ad Unmarshal st ad) =
  if decide (matching Unmarshal ad ∧ ¬ auction_ad Unmarshal ad)
  then int_incr (otherCount st) else otherCount st.
Proof.
  destruct (decide (matching Unmarshal ad)) as [(attrs & H & Hm)|Hnm].
  - destruct (process_ad_counted st ad attrs H Hm) as (_ & _ & Hc).
    simpl in Hc. rewrite Hc. unfold count_adType.
    destruct (String.eqb_spec (last_field "product_detail" step_adType
                                 (StepsData attrs)) "auction") as [Ha|Ha];
      simpl.
    + rewrite decide_False; [done|]. intros [_ Hno]. apply Hno. by exists attrs.
    + rewrite decide_True; [done|]. split; [by exists attrs|].
      intros (attrs' & ? & _ & ?). congruence.
  - rewrite decide_False by (by intros [? _]).
    by apply process_ad_not_counted.
Qed.

Lemma process_ads_counters n st ads :
  n + Z.of_nat (length ads) < 2 ^ 63 → counters_within n st →
  auctionCount (process_ads Unmarshal st ads) =
    auctionCount st + Z.of_nat (length (filter (auction_ad Unmarshal) ads)) ∧
  otherCount (process_ads Unmarshal st ads) =
    otherCount st +
    Z.of_nat (length (filter (λ ad, matching Unmarshal ad ∧
                                    ¬ auction_ad Unmarshal ad) ads)).
Proof.
  revert n st. induction ads as [|ad ads IH]; intros n st Hn Hst.
  - simpl. lia.
  - change (process_ads Unmarshal st (ad :: ads))
      with (process_ads Unmarshal (process_ad Unmarshal st ad) ads).
    rewrite length_cons, Nat2Z.inj_succ in Hn.
    destruct (IH (n + 1) (process_ad Unmarshal st ad)) as [Ha Ho];
      [lia | apply process_ad_within; [lia | done] |].
    rewrite Ha, Ho, process_ad_auctionCount, process_ad_otherCount.
    rewrite !filter_cons. destruct Hst as (? & ? & ?).
    repeat case_decide; rewrite ?int_incr_no_overflow by lia;
      rewrite ?length_cons; lia.
Qed.

(** The log after one ad and after a run. *)
Lemma process_ad_logged st ad :
  logged (process_ad Unmarshal st ad) =
  logged st ++ logged (process_ad Unmarshal initial ad).
Proof.
  unfold process_ad.
  destruct (Unmarshal (Ad.Attributes ad)) as [err|attrs]; [done|].
  destruct (subcategory_loop (StepsData attrs)); simpl; [|by rewrite app_nil_r].
  destruct (hasOnlinePayment (scan_loop (StepsData attrs)));
    [|by rewrite !logged_count_adType, app_nil_r].
  destruct (String.eqb (Ad.CodeNumber ad) ""); simpl;
    by rewrite !logged_count_adType, ?app_nil_r.
Qed.

Lemma process_ads_logged st ads :
  logged (process_ads Unmarshal st ads) =
  logged st ++ flat_map (λ ad, logged (process_ad Unmarshal initial ad)) ads.
Proof.
  revert st. induction ads as [|ad ads IH]; intros st.
  - simpl. by rewrite app_nil_r.
  - change (process_ads Unmarshal st (ad :: ads))
      with (process_ads Unmarshal (process_ad Unmarshal st ad) ads).
    rewrite IH, process_ad_logged. simpl. by rewrite <- app_assoc.
Qed.

Lemma logged_of_ad ad line :
  line ∈ logged (process_ad Unmarshal initial ad) ↔
  (∃ err, Unmarshal (Ad.Attributes ad) = inl err ∧
          line = LogUnmarshalError (Ad.ID ad) err) ∨
  (∃ attrs, Unmarshal (Ad.Attributes ad) = inr attrs ∧
            subcategoryMatch (StepsData attrs) ∧
            hasQualifyingPayment (StepsData attrs) ∧
            Ad.CodeNumber ad = "" ∧
            line = LogMissingCodeNumber (Ad.ID ad)).
Proof.
  unfold process_ad.
  destruct (Unmarshal (Ad.Attributes ad)) as [err|attrs] eqn:H; simpl.
  { rewrite list_elem_of_singleton. split.
    - intros ->. left. eauto.
    - intros [(err' & ? & ->)|(attrs & ? & _)]; by simplify_eq. }
  destruct (subcategory_loop (StepsData attrs)) eqn:Hm; simpl.
  2: { apply subcategory_loop_false in Hm. split; [by intros ?%elem_of_nil|].
       intros [(err & ? & _)|(attrs' & ? & Hs & _)]; by simplify_eq. }
  destruct (hasOnlinePayment (scan_loop (StepsData attrs))) eqn:Hp.
  2: { apply scan_loop_no_payment in Hp. rewrite logged_count_adType. simpl.
       split; [by intros ?%elem_of_nil|].
       intros [(err & ? & _)|(attrs' & ? & _ & Hpaid & _)]; by simplify_eq. }
  apply subcategory_loop_spec in Hm. apply scan_loop_payment in Hp.
  destruct (String.eqb_spec (Ad.CodeNumber ad) "") as [Hc|Hc]; simpl;
    rewrite logged_count_adType; simpl.
  - rewrite list_elem_of_singleton. split.
    + intros ->. right. exists attrs. eauto.
    + intros [(err & ? & _)|(attrs' & _ & _ & _ & _ & ->)]; by simplify_eq.
  - split; [by intros ?%elem_of_nil|].
    intros [(err & ? & _)|(attrs' & _ & _ & _ & ? & _)]; by simplify_eq.
Qed.

(** *** Properties of the whole run *)

(** X1: the records that [FetchAds] returns are the projections of the
    fetched ads that decode, match the allow-list, have a qualifying payment
    and a code number: one record for each such ad, in the order of the ads,
    and no other record. *)
Theorem returned_records_are_projections ads :
  ∃ its,
    fst (FetchAds Unmarshal (inr ads)) = inr its ∧
    Forall2 (λ ad item, ∃ attrs, Unmarshal (Ad.Attributes ad) = inr attrs ∧
                                 item = projection ad (StepsData attrs))
      (filter (qualifying Unmarshal) ads) its.
Proof.
  exists (items (process_ads Unmarshal initial ads)). split; [done|].
  apply items_of_run.
Qed.

(** X2: in a run over fewer than 2^63 ads the two totals logged at the end
    are the number of counted ads whose last "product_detail" step has the ad
    type "auction" and the number of the other counted ads, where an ad is
    counted when it decodes and matches the allow-list, projected or not. *)
Theorem totals_count_the_matching_ads ads :
  Z.of_nat (length ads) < 2 ^ 63 →
  ∃ lines,
    snd (FetchAds Unmarshal (inr ads)) =
    lines ++
    [LogAuctionTotal
       (Z.of_nat (length (filter (auction_ad Unmarshal) ads)));
     LogOtherTotal
       (Z.of_nat (length (filter (λ ad, matching Unmarshal ad ∧
                                        ¬ auction_ad Unmarshal ad) ads)))].
Proof.
  intros Hlen. exists (logged (process_ads Unmarshal initial ads)).
  destruct (process_ads_counters 0 initial ads) as [Ha Ho]; [lia| |].
  { unfold counters_within. simpl. lia. }
  unfold FetchAds. simpl. by rewrite Ha, Ho.
Qed.

(** X3: the log of a run holds a decode-error line for each fetched ad whose
    attributes do not decode, a missing-code line for each matching ad with a
    qualifying payment and an empty code number, the two totals, and nothing
    else. *)
Theorem log_lines_of_a_run ads line :
  line ∈ snd (FetchAds Unmarshal (inr ads)) ↔
  (∃ ad err, ad ∈ ads ∧ Unmarshal (Ad.Attributes ad) = inl err ∧
             line = LogUnmarshalError (Ad.ID ad) err) ∨
  (∃ ad attrs, ad ∈ ads ∧ Unmarshal (Ad.Attributes ad) = inr attrs ∧
               subcategoryMatch (StepsData attrs) ∧
               hasQualifyingPayment (StepsData attrs) ∧
               Ad.CodeNumber ad = "" ∧
               line = LogMissingCodeNumber (Ad.ID ad)) ∨
  line = LogAuctionTotal (auctionCount (process_ads Unmarshal initial ads)) ∨
  line = LogOtherTotal (otherCount (process_ads Unmarshal initial ads)).
Proof.
  unfold FetchAds. simpl. rewrite process_ads_logged. simpl.
  rewrite elem_of_app, list_elem_of_In, in_flat_map.
  rewrite elem_of_cons, list_elem_of_singleton. split.
  - intros [(ad & Had%list_elem_of_In & Hl%list_elem_of_In)|[->| ->]]; auto.
    apply logged_of_ad in Hl as [(err & ? & ?)|(attrs & ? & ? & ? & ? & ?)].
    + left. by exists ad, err.
    + right; left. by exists ad, attrs.
  - intros [(ad & err & Had & H & ->)|[(ad & attrs & Had & H)|[->| ->]]];
      auto; left; exists ad; (split; [by apply list_elem_of_In|]);
      apply list_elem_of_In, logged_of_ad; eauto.
Qed.

(** X4: when the fetched ads have pairwise distinct ids, so have the returned
    records, and their links are pairwise distinct too. *)
Theorem distinct_ads_give_distinct_records ads its log :
  FetchAds Unmarshal (inr ads) = (inr its, log) →
  NoDup (Ad.ID <$> ads) →
  NoDup (AdItem.ID <$> its) ∧ NoDup (AdItem.Link <$> its).
Proof.
  intros H Hnodup. unfold FetchAds in H. simplify_eq.
  pose proof (items_of_run ads) as HF.
  assert (NoDup (Ad.ID <$> filter (qualifying Unmarshal) ads)) as Hids.
  { eapply sublist_NoDup; [done|]. apply fmap_sublist, sublist_filter. }
  split.
  - rewrite <- (Forall2_fmap_eq _ Ad.ID AdItem.ID _ _ HF); [done|].
    by intros ad item (attrs & _ & ->).
  - rewrite <- (Forall2_fmap_eq _
                  (λ ad, "https://ayshei.com/product/" +:+ Ad.ID ad)
                  AdItem.Link _ _ HF); [|by intros ad item (attrs & _ & ->)].
    change (NoDup ((String.append "https://ayshei.com/product/" ∘ Ad.ID)
                     <$> filter (qualifying Unmarshal) ads)).
    rewrite list_fmap_compose. apply NoDup_fmap_2_strong; [|done].
    intros a b _ _. apply append_cancel_l.
Qed.

End Coverage.

(** ** Changes of the decoded steps that the loops do not see *)

Section Unread.

Variable g : Step → Step.
Hypothesis g_Name : ∀ step, Name (g step) = Name step.
Hypothesis g_ID : ∀ step, ID_ID (ID (Data (g step))) = ID_ID (ID (Data step)).
Hypothesis g_search :
  ∀ step, InputSearchValue (Data (g step)) = InputSearchValue (Data step).
Hypothesis g_Brand :
  ∀ step, Brand (Values (Data (g step))) = Brand (Values (Data step)).
Hypothesis g_Price :
  ∀ step, Price (Values (Data (g step))) = Price (Values (Data step)).
Hypothesis g_payments :
  ∀ step, PaymentMethods (Data (g step)) = PaymentMethods (Data step).
Hypothesis g_image :
  ∀ step, head (Images (Values (Data (g step)))) =
          head (Images (Values (Data step))).

Lemma subcategory_loop_unread steps :
  subcategory_loop (g <$> steps) = subcategory_loop steps.
Proof.
  induction steps as [|step steps IH]; [done|].
  rewrite fmap_cons. simpl. by rewrite g_Name, g_ID, IH.
Qed.

Lemma fields_step_unread acc step :
  fields_step acc (g step) = fields_step acc step.
Proof.
  unfold fields_step. rewrite g_Name, g_search, g_Brand.
  pose proof (g_image step) as Himage.
  destruct (Images (Values (Data (g step)))), (Images (Values (Data step)));
    by simplify_eq/=.
Qed.

Lemma fields_loop_unread steps :
  fields_loop (g <$> steps) = fields_loop steps.
Proof.
  unfold fields_loop. generalize (mkFields "" "" "").
  induction steps as [|step steps IH]; intros acc; [done|].
  rewrite fmap_cons. simpl. by rewrite fields_step_unread, IH.
Qed.

Lemma scan_loop_unread steps :
  price (scan_loop (g <$> steps)) = price (scan_loop steps) ∧
  hasOnlinePayment (scan_loop (g <$> steps)) =
    hasOnlinePayment (scan_loop steps).
Proof.
  unfold scan_loop.
  assert (∀ acc acc',
            price acc = price acc' →
            hasOnlinePayment acc = hasOnlinePayment acc' →
            price (fold_left scan_step (g <$> steps) acc) =
              price (fold_left scan_step steps acc') ∧
            hasOnlinePayment (fold_left scan_step (g <$> steps) acc) =
              hasOnlinePayment (fold_left scan_step steps acc')) as H;
    [|by apply H].
  induction steps as [|step steps IH]; intros acc acc' Hp Hh; [done|].
  rewrite fmap_cons. simpl. apply IH; unfold scan_step;
    rewrite g_Name, ?g_payments, ?g_Price;
    repeat match goal with
           | |- context [String.eqb ?a ?b] => destruct (String.eqb a b)
           end; simpl; congruence.
Qed.

(** The items that one ad gives do not change. *)
Lemma process_ad_items_unread Unmarshal ad :
  items (process_ad (decode_with g Unmarshal) initial ad) =
  items (process_ad Unmarshal initial ad).
Proof.
  unfold process_ad, decode_with.
  destruct (Unmarshal (Ad.Attributes ad)) as [err|attrs]; [done|]. simpl.
  destruct (scan_loop_unread (StepsData attrs)) as [Hprice Hpaid].
  rewrite subcategory_loop_unread, fields_loop_unread, Hprice, Hpaid.
  destruct (subcategory_loop (StepsData attrs)); [|done]. simpl.
  destruct (hasOnlinePayment (scan_loop (StepsData attrs)));
    [|by rewrite !items_count_adType].
  destruct (String.eqb (Ad.CodeNumber ad) ""); simpl;
    by rewrite !items_count_adType.
Qed.

Lemma FetchAds_items_unread Unmarshal ads :
  fst (FetchAds (decode_with g Unmarshal) (inr ads)) =
  fst (FetchAds Unmarshal (inr ads)).
Proof.
  rewrite !FetchAds_items. f_equal.
  induction ads as [|ad ads IH]; [done|]. simpl.
  by rewrite process_ad_items_unread, IH.
Qed.

(** When the ad type is kept as well, nothing changes. *)
Lemma process_ad_unread Unmarshal st ad :
  (∀ step, AdType (Values (Data (g step))) = AdType (Values (Data step))) →
  process_ad (decode_with g Unmarshal) st ad = process_ad Unmarshal st ad.
Proof.
  intros g_AdType. unfold process_ad, decode_with.
  destruct (Unmarshal (Ad.Attributes ad)) as [err|attrs]; [done|]. simpl.
  rewrite subcategory_loop_unread, fields_loop_unread.
  assert (scan_loop (g <$> StepsData attrs) = scan_loop (StepsData attrs))
    as ->; [|done].
  unfold scan_loop. generalize (mkScan "" "" false).
  induction (StepsData attrs) as [|step steps IH]; intros acc; [done|].
  rewrite fmap_cons. simpl. rewrite <- IH. f_equal. unfold scan_step.
  by rewrite g_Name, g_payments, g_Price, g_AdType.
Qed.

End Unread.

(** ** The strings of the records *)

Lemma last_field_valid name f steps :
  Forall (λ step, ValidString (f step) = true) steps →
  ValidString (last_field name f steps) = true.
Proof.
  intros H. unfold last_field, last_named.
  destruct (last (filter (λ step, Name step = name) steps)) as [step|] eqn:E;
    [|done]. simpl.
  apply last_Some_elem_of, list_elem_of_filter in E as [_ Hin].
  by eapply Forall_forall in H.
Qed.

Lemma first_image_valid steps :
  Forall well_formed_step steps →
  ValidString (from_option step_first_image "" (last_with_image steps)) = true.
Proof.
  intros H. unfold last_with_image.
  destruct (last (filter _ steps)) as [step|] eqn:E; [|done]. simpl.
  apply last_Some_elem_of, list_elem_of_filter in E as [_ Hin].
  eapply Forall_forall in H as (_ & _ & _ & Himages); [|done].
  unfold step_first_image.
  destruct (Images (Values (Data step))) as [|image images]; [done|].
  simpl. by apply Forall_cons in Himages as [? _].
Qed.

Lemma image_link_valid draftID src :
  ValidString draftID = true → ValidString src = true →
  ValidString (image_link draftID src) = true.
Proof.
  intros Hd Hs. unfold image_link, Sprintf_image. case_decide; [done|].
  repeat (apply ValidString_append; [done|]). done.
Qed.

Lemma projection_well_formed ad steps :
  well_formed_ad ad → Forall well_formed_step steps →
  well_formed_item (projection ad steps).
Proof.
  intros (Hid & Hdraft & Hdesc & Hcode) Hsteps.
  unfold well_formed_item, projection. simpl.
  split; [done|].
  split.
  { apply ValidString_strip_ampersand, last_field_valid.
    eapply Forall_impl; [done|]. by intros step (? & _). }
  split; [by apply ValidString_strip_LRM|].
  split; [by apply ValidString_append|].
  split; [by apply image_link_valid, first_image_valid|].
  split.
  { apply last_field_valid. eapply Forall_impl; [done|].
    by intros step (_ & ? & _). }
  split; [|done].
  apply ValidString_append; [|done]. apply last_field_valid.
  eapply Forall_impl; [done|]. by intros step (_ & _ & ? & _).
Qed.

Section Records.

Variable Unmarshal : string → error + AdAttributes.

(** Every record of a run is the projection of a fetched ad that qualifies. *)
Lemma record_source ads item :
  item ∈ items (process_ads Unmarshal initial ads) →
  ∃ ad attrs,
    ad ∈ ads ∧ Unmarshal (Ad.Attributes ad) = inr attrs ∧
    subcategoryMatch (StepsData attrs) ∧
    hasQualifyingPayment (StepsData attrs) ∧
    Ad.CodeNumber ad ≠ "" ∧
    item = projection ad (StepsData attrs).
Proof.
  rewrite process_ads_items. simpl.
  intros (ad & Had%list_elem_of_In & Hin%list_elem_of_In)%list_elem_of_In%in_flat_map.
  destruct (decide (qualifying Unmarshal ad)) as [(attrs & H & Hm & Hp & Hc)|Hq].
  - rewrite (process_ad_projection Unmarshal initial ad attrs H Hm Hp Hc) in Hin.
    apply list_elem_of_singleton in Hin as ->. by exists ad, attrs.
  - rewrite (process_ad_not_qualifying Unmarshal initial ad Hq) in Hin.
    by apply elem_of_nil in Hin.
Qed.

(** X5: the description of a returned record is the description of its ad
    with the code points U+200E taken out and every other code point kept, in
    order, when the fetched description is well-formed UTF-8. *)
Theorem description_loses_only_U200E ads its log item :
  FetchAds Unmarshal (inr ads) = (inr its, log) →
  item ∈ its →
  ∃ ad,
    ad ∈ ads ∧ qualifying Unmarshal ad ∧ AdItem.ID item = Ad.ID ad ∧
    (ValidString (Ad.Description ad) = true →
     join (runes (Ad.Description ad)) = Ad.Description ad ∧
     AdItem.Description item =
       join (filter (λ r, r ≠ LRM) (runes (Ad.Description ad)))).
Proof.
  intros H Hin. unfold FetchAds in H. simplify_eq.
  apply record_source in Hin as (ad & attrs & Had & H & Hm & Hp & Hc & ->).
  exists ad. split; [done|]. split; [by exists attrs|]. split; [done|].
  intros Hvalid. split; [by apply join_runes|].
  by apply ReplaceAll_LRM_runes.
Qed.

(** X6: the title of a returned record is the search text of the last
    "search_product" step of its ad with the ampersand bytes taken out and
    every other byte kept, in order. *)
Theorem title_loses_only_ampersands ads its log item :
  FetchAds Unmarshal (inr ads) = (inr its, log) →
  item ∈ its →
  ∃ ad attrs,
    ad ∈ ads ∧ Unmarshal (Ad.Attributes ad) = inr attrs ∧
    AdItem.ID item = Ad.ID ad ∧
    list_ascii_of_string (AdItem.Title item) =
      filter (λ c, c ≠ "&"%char)
        (list_ascii_of_string
           (last_field "search_product" step_title (StepsData attrs))).
Proof.
  intros H Hin. unfold FetchAds in H. simplify_eq.
  apply record_source in Hin as (ad & attrs & Had & H & Hm & Hp & Hc & ->).
  exists ad, attrs. repeat split; try done. apply ReplaceAll_ampersand_bytes.
Qed.

(** X7: when the strings of the fetched ads and of the decoded steps are
    well-formed UTF-8, every string of every returned record is. *)
Theorem records_are_well_formed ads its log :
  FetchAds Unmarshal (inr ads) = (inr its, log) →
  Forall well_formed_ad ads →
  (∀ blob attrs, Unmarshal blob = inr attrs →
                 Forall well_formed_step (StepsData attrs)) →
  Forall well_formed_item its.
Proof.
  intros H Hads Hsteps. unfold FetchAds in H. simplify_eq.
  apply Forall_forall. intros item Hin.
  apply record_source in Hin as (ad & attrs & Had & H & _ & _ & _ & ->).
  apply projection_well_formed; [|by eapply Hsteps].
  by eapply Forall_forall in Hads.
Qed.

(** X8: the ad types of the decoded steps have no part in the returned
    records: with every ad type replaced by any other value the same records
    are returned. *)
Theorem adType_has_no_part_in_the_records f reply :
  fst (FetchAds (decode_with (with_adType f) Unmarshal) reply) =
  fst (FetchAds Unmarshal reply).
Proof.
  destruct reply as [err|ads]; [done|]. by apply FetchAds_items_unread.
Qed.

(** X9: the pass looks at the first image of a step only, and never at the
    value beside a step's identifier: without the further images and without
    that value the run returns and logs the same. *)
Theorem further_images_are_never_read reply :
  FetchAds (decode_with only_read_fields Unmarshal) reply =
  FetchAds Unmarshal reply.
Proof.
  destruct reply as [err|ads]; [done|]. unfold FetchAds.
  assert (process_ads (decode_with only_read_fields Unmarshal) initial ads =
          process_ads Unmarshal initial ads) as ->; [|done].
  unfold process_ads. generalize initial.
  induction ads as [|ad ads IH]; intros st; [done|]. simpl.
  rewrite <- IH. f_equal. apply process_ad_unread; try done.
  intros step. simpl. by destruct (Images (Values (Data step))).
Qed.

End Records.

(** The allow-list test and the payment test give the same on every
    reordering of the steps. *)
Lemma tests_ignore_the_order steps steps' :
  steps ≡ₚ steps' →
  (subcategoryMatch steps ↔ subcategoryMatch steps') ∧
  (hasQualifyingPayment steps ↔ hasQualifyingPayment steps').
Proof.
  intros Hperm. unfold subcategoryMatch, hasQualifyingPayment.
  split; by setoid_rewrite Hperm.
Qed.

Lemma ids_of_run Unmarshal ads :
  AdItem.ID <$> items (process_ads Unmarshal initial ads) =
  Ad.ID <$> filter (qualifying Unmarshal) ads.
Proof.
  symmetry. eapply Forall2_fmap_eq; [apply items_of_run|].
  by intros ad item (attrs & _ & ->).
Qed.

(** X10: which ads are returned does not depend on the order of the steps in
    their attribute documents: with the steps of every document reordered,
    the records returned are records of the same ads, in the same order. *)
Theorem returned_ads_ignore_the_order_of_steps Unmarshal reorder ads :
  (∀ steps, reorder steps ≡ₚ steps) →
  AdItem.ID <$>
    items (process_ads (decode_reordered reorder Unmarshal) initial ads) =
  AdItem.ID <$> items (process_ads Unmarshal initial ads).
Proof.
  intros Hperm. rewrite !ids_of_run. f_equal. apply list_filter_iff.
  intros ad. unfold qualifying, decode_reordered. split.
  - intros (attrs' & H & Hm & Hp & Hc).
    destruct (Unmarshal (Ad.Attributes ad)) as [err|attrs]; simplify_eq.
    exists attrs. simpl in *.
    destruct (tests_ignore_the_order _ _ (Hperm (StepsData attrs))) as [-> ->]
      in Hm, Hp. done.
  - intros (attrs & H & Hm & Hp & Hc). rewrite H.
    eexists. split; [done|]. simpl.
    destruct (tests_ignore_the_order _ _ (Hperm (StepsData attrs))) as [-> ->].
    done.
Qed.

(** ** The further properties on the sample data *)

Lemma totals_witness :
  ∃ lines,
    snd (FetchAds sample_Unmarshal (inr sample_ads)) =
    lines ++ [LogAuctionTotal 2; LogOtherTotal 1].
Proof.
  exact (totals_count_the_matching_ads sample_Unmarshal sample_ads eq_refl).
Defined.

Lemma sample_ads_distinct : NoDup (Ad.ID <$> sample_ads).
Proof. apply (bool_decide_unpack _). by vm_compute. Qed.

Lemma distinct_records_witness :
  NoDup (AdItem.ID <$> items (process_ads sample_Unmarshal initial sample_ads)) ∧
  NoDup (AdItem.Link <$> items (process_ads sample_Unmarshal initial sample_ads)).
Proof.
  exact (distinct_ads_give_distinct_records sample_Unmarshal sample_ads _ _
           eq_refl sample_ads_distinct).
Defined.

Lemma sample_record_returned :
  projection (sample_ad "a1" "0123" "qualifying") qualifying_steps ∈
  items (process_ads sample_Unmarshal initial sample_ads).
Proof. vm_compute. apply list_elem_of_here. Qed.

Lemma description_witness :
  ∃ ad,
    ad ∈ sample_ads ∧ qualifying sample_Unmarshal ad ∧
    "a1" = Ad.ID ad ∧
    (ValidString (Ad.Description ad) = true →
     join (runes (Ad.Description ad)) = Ad.Description ad ∧
     "A fine thing" =
       join (filter (λ r, r ≠ LRM) (runes (Ad.Description ad)))).
Proof.
  exact (description_loses_only_U200E sample_Unmarshal sample_ads _ _ _
           eq_refl sample_record_returned).
Defined.

Lemma title_witness :
  ∃ ad attrs,
    ad ∈ sample_ads ∧ sample_Unmarshal (Ad.Attributes ad) = inr attrs ∧
    "a1" = Ad.ID ad ∧
    list_ascii_of_string "Bag  Belt" =
      filter (λ c, c ≠ "&"%char)
        (list_ascii_of_string
           (last_field "search_product" step_title (StepsData attrs))).
Proof.
  exact (title_loses_only_ampersands sample_Unmarshal sample_ads _ _ _
           eq_refl sample_record_returned).
Defined.

Lemma sample_ads_well_formed : Forall well_formed_ad sample_ads.
Proof. by repeat constructor. Qed.

Lemma sample_steps_well_formed blob attrs :
  sample_Unmarshal blob = inr attrs → Forall well_formed_step (StepsData attrs).
Proof.
  unfold sample_Unmarshal.
  repeat match goal with
         | |- context [String.eqb ?a ?b] => destruct (String.eqb a b)
         end; intros H; simplify_eq; by repeat constructor.
Qed.

Lemma well_formed_witness :
  Forall well_formed_item (items (process_ads sample_Unmarshal initial sample_ads)).
Proof.
  exact (records_are_well_formed sample_Unmarshal sample_ads _ _ eq_refl
           sample_ads_well_formed sample_steps_well_formed).
Defined.

Lemma order_witness :
  AdItem.ID <$>
    items (process_ads (decode_reordered reverse sample_Unmarshal) initial
             sample_ads) =
  AdItem.ID <$> items (process_ads sample_Unmarshal initial sample_ads).
Proof.
  exact (returned_ads_ignore_the_order_of_steps sample_Unmarshal reverse
           sample_ads reverse_Permutation).
Defined.
